(** * Risk analytics of the FRA WebGIS backend ([backend/main.py])

    A shallow embedding of [get_analytics] and [generate_report], and the
    properties of the risk analytics they implement.

    - JSON documents are the values [json.load] produces.
    - Python exceptions are an error monad; the [try/except Exception] of
      the handlers turns a raised exception into an [{"error": str(e)}]
      payload.
    - Python [float] is IEEE 754 binary64, modelled by Rocq's primitive
      floats ([PrimFloat]); counters are Python [int], modelled by [Z].
      Bounds on float results are proved on the specification of the
      primitive operations ([SpecFloat], through [FloatAxioms]).
    - The file store, the environment variable and the text-generation
      service are the fields of a [world] record; [generate_report] logs the
      external effects it performs.

    Layout: the model; the vocabulary of the properties; lemmas on the
    loops and the aggregates; binary64 arithmetic; the properties C1 to
    C10. *)

From Stdlib Require Import ZArith List String Ascii Bool Lia.
From Stdlib Require Import Floats Uint63.
From Stdlib Require Import Reals Lra Psatz.
From Stdlib Require Import Permutation.
Import ListNotations.

Set Warnings "-register-all,-inexact-float".

Local Open Scope string_scope.
Local Open Scope list_scope.
Local Open Scope Z_scope.

(* ===================================================================== *)
(** ** JSON values

    The values [json.load] returns: [None], [bool], [int], [float], [str],
    [list] and [dict].  A [JDict] lists the items of the parsed dict, whose
    keys are distinct strings. *)

Inductive json : Type :=
| JNull
| JBool (b : bool)
| JInt (n : Z)
| JFloat (f : float)
| JStr (s : string)
| JList (xs : list json)
| JDict (items : list (string * json)).

(** [type(v).__name__] *)
Definition type_name (v : json) : string :=
  match v with
  | JNull => "NoneType"
  | JBool _ => "bool"
  | JInt _ => "int"
  | JFloat _ => "float"
  | JStr _ => "str"
  | JList _ => "list"
  | JDict _ => "dict"
  end.

(* ===================================================================== *)
(** ** Exceptions *)

Inductive exn : Type :=
| AttributeError (ty attr : string)
| TypeError_len (ty : string)
| TypeError_unhashable (ty : string)
| ZeroDivisionError
| IOFailure (msg : string).   (* [open] or [json.load] raised; [msg] is [str(e)] *)

(** [str(e)] *)
Definition exn_str (e : exn) : string :=
  match e with
  | AttributeError ty attr =>
      ("'" ++ ty ++ "' object has no attribute '" ++ attr ++ "'")%string
  | TypeError_len ty => ("object of type '" ++ ty ++ "' has no len()")%string
  | TypeError_unhashable ty => ("unhashable type: '" ++ ty ++ "'")%string
  | ZeroDivisionError => "division by zero"
  | IOFailure msg => msg
  end.

Inductive result (A : Type) : Type :=
| Ok (a : A)
| Raise (e : exn).
Arguments Ok {A} a.
Arguments Raise {A} e.

Definition bind {A B : Type} (c : result A) (k : A -> result B) : result B :=
  match c with
  | Ok a => k a
  | Raise e => Raise e
  end.

Notation "x <- c ;; k" := (bind c (fun x => k))
  (at level 61, c at next level, right associativity).

(** A loop whose body may raise: [for x in xs: st = body(st, x)]. *)
Fixpoint for_each {S A : Type} (body : S -> A -> result S) (xs : list A) (st : S)
  : result S :=
  match xs with
  | [] => Ok st
  | x :: xs' => st' <- body st x ;; for_each body xs' st'
  end.

(* ===================================================================== *)
(** ** Python operations on JSON values *)

Fixpoint assoc (key : string) (items : list (string * json)) : option json :=
  match items with
  | [] => None
  | (k, v) :: rest => if String.eqb k key then Some v else assoc key rest
  end.

(** [v.get(key, default)]; only a [dict] has the method. *)
Definition py_get (v : json) (key : string) (default : json) : result json :=
  match v with
  | JDict items =>
      Ok (match assoc key items with Some x => x | None => default end)
  | _ => Raise (AttributeError (type_name v) "get")
  end.

(** [len(v)]; a string counts its characters (ASCII here). *)
Definition py_len (v : json) : result Z :=
  match v with
  | JStr s => Ok (Z.of_nat (String.length s))
  | JList xs => Ok (Z.of_nat (List.length xs))
  | JDict items => Ok (Z.of_nat (List.length items))
  | _ => Raise (TypeError_len (type_name v))
  end.

(** The elements [for x in v] visits.  A string yields its characters, a
    dict its keys.  Non-iterable values are excluded by the [len] that the
    handler evaluates first. *)
Definition py_iter (v : json) : list json :=
  match v with
  | JStr s => map (fun c => JStr (String c EmptyString)) (list_ascii_of_string s)
  | JList xs => xs
  | JDict items => map (fun kv => JStr (fst kv)) items
  | _ => []
  end.

(** Truth value of [v] in a boolean context. *)
Definition truthy (v : json) : bool :=
  match v with
  | JNull => false
  | JBool b => b
  | JInt n => negb (n =? 0)
  | JFloat f => negb (PrimFloat.eqb f 0%float)
  | JStr s => negb (String.eqb s "")
  | JList xs => match xs with [] => false | _ => true end
  | JDict items => match items with [] => false | _ => true end
  end.

(** The integer a float denotes, when it is one. *)
Definition float_integral (f : float) : option Z :=
  match Prim2SF f with
  | S754_zero _ => Some 0
  | S754_finite s m e =>
      let v := if 0 <=? e then Some (Z.pos m * 2 ^ e)
               else if Z.pos m mod 2 ^ (- e) =? 0 then Some (Z.pos m / 2 ^ (- e))
               else None in
      option_map (fun z => if s then - z else z) v
  | _ => None
  end.

Definition int_eq_float (n : Z) (f : float) : bool :=
  match float_integral f with
  | Some z => n =? z
  | None => false
  end.

Definition bool_int (b : bool) : Z := if b then 1 else 0.

(** [a == b] on scalars ([bool] is a subtype of [int]; numbers compare by
    value).  Containers only meet [==] here against a string, which is
    [False]. *)
Definition py_eq (a b : json) : bool :=
  match a, b with
  | JNull, JNull => true
  | JStr s, JStr t => String.eqb s t
  | JBool x, JBool y => Bool.eqb x y
  | JBool x, JInt n | JInt n, JBool x => bool_int x =? n
  | JBool x, JFloat f | JFloat f, JBool x => int_eq_float (bool_int x) f
  | JInt n, JInt m => n =? m
  | JInt n, JFloat f | JFloat f, JInt n => int_eq_float n f
  | JFloat f, JFloat g => PrimFloat.eqb f g
  | _, _ => false
  end.

Definition is_nan_json (v : json) : bool :=
  match v with
  | JFloat f => PrimFloat.is_nan f
  | _ => false
  end.

(** Key match of a dict lookup: identity or [==].  [json.load] returns one
    shared object for every [NaN] literal, so two NaN keys are identical. *)
Definition key_eq (a b : json) : bool :=
  (is_nan_json a && is_nan_json b) || py_eq a b.

(** [hash(v)] raises for lists and dicts. *)
Definition py_hash (v : json) : result unit :=
  match v with
  | JList _ | JDict _ => Raise (TypeError_unhashable (type_name v))
  | _ => Ok tt
  end.

(* ===================================================================== *)
(** ** Python numbers *)

(** [float(n)] for [0 <= n < 2^63]; exact below [2^53].  A Python list has
    fewer than [2^63] elements, so every counter of the handler is in
    range.  On such operands [a / b] is [float(a) / float(b)]. *)
Definition float_of_int (n : Z) : float :=
  PrimFloat.of_uint63 (Uint63.of_Z n).

(** [a / b] on ints *)
Definition truediv (a b : Z) : result float :=
  if b =? 0 then Raise ZeroDivisionError
  else Ok (float_of_int a / float_of_int b)%float.

(** Nearest integer to [a / b], ties to even ([0 <= a], [0 < b]). *)
Definition div_half_even (a b : Z) : Z :=
  let q := a / b in
  let r := a mod b in
  match 2 * r ?= b with
  | Lt => q
  | Gt => q + 1
  | Eq => if Z.even q then q else q + 1
  end.

(** [|x| * 10^ndigits] for the finite float of mantissa [m] and exponent
    [e], rounded to the nearest integer, ties to even. *)
Definition scaled_half_even (ndigits : Z) (m : positive) (e : Z) : Z :=
  if 0 <=? e then Z.pos m * 10 ^ ndigits * 2 ^ e
  else div_half_even (Z.pos m * 10 ^ ndigits) (2 ^ (- e)).

(** [round(x, ndigits)] on a float, [0 <= ndigits <= 22]: the decimal with
    [ndigits] places nearest to the exact value of [x] (ties to even),
    read back as the nearest float.  Zeros, infinities and NaN round to
    themselves, and so does [x] once [|x| * 10^ndigits >= 2^53], where the
    floats are spaced wider than [10^-ndigits]. *)
Definition py_round_float (ndigits : Z) (x : float) : float :=
  match Prim2SF x with
  | S754_finite s m e =>
      let n := scaled_half_even ndigits m e in
      if n <? 2 ^ 53 then
        let r := (float_of_int n / float_of_int (10 ^ ndigits))%float in
        if s then (- r)%float else r
      else x
  | _ => x
  end.

Inductive pynum : Type :=
| PyInt (n : Z)
| PyFloat (f : float).

(** [round(v, ndigits)] with [0 <= ndigits]: an int rounds to itself. *)
Definition py_round (ndigits : Z) (v : pynum) : pynum :=
  match v with
  | PyInt n => PyInt n
  | PyFloat f => PyFloat (py_round_float ndigits f)
  end.


(* ===================================================================== *)
(** ** [get_analytics] *)

(** One entry of [districts_data]. *)
Record stats : Type := mkStats {
  total : Z;
  pending : Z;
  conflicts : Z;
  approved : Z
}.

(** [districts_data]: a dict keeps its keys in insertion order. *)
Definition districts := list (json * stats).

(** Loop state of the tally pass. *)
Record tally : Type := mkTally {
  approved_claims : Z;
  pending_claims : Z;
  conflict_claims : Z;
  districts_data : districts
}.

Fixpoint find_slot (d : json) (dd : districts) : option nat :=
  match dd with
  | [] => None
  | (k, _) :: rest =>
      if key_eq k d then Some O else option_map S (find_slot d rest)
  end.

(** [district in districts_data] *)
Definition dd_mem (d : json) (dd : districts) : bool :=
  match find_slot d dd with Some _ => true | None => false end.

Fixpoint update_at (i : nat) (f : stats -> stats) (dd : districts) {struct dd}
  : districts :=
  match dd with
  | [] => []
  | (k, v) :: rest =>
      match i with
      | O => (k, f v) :: rest
      | S j => (k, v) :: update_at j f rest
      end
  end.

(** [districts_data[district][field] += 1], as [f] on the entry of
    [district].  The handler has inserted the key before (lines 80-86), so
    the lookup finds it (lemma [district_counts_shape]); a lookup that
    misses would be a [KeyError] in Python and changes nothing here. *)
Definition dd_update (d : json) (f : stats -> stats) (dd : districts) : districts :=
  match find_slot d dd with
  | Some i => update_at i f dd
  | None => dd
  end.

Definition incr_total (s : stats) : stats :=
  mkStats (total s + 1) (pending s) (conflicts s) (approved s).
Definition incr_pending (s : stats) : stats :=
  mkStats (total s) (pending s + 1) (conflicts s) (approved s).
Definition incr_conflicts (s : stats) : stats :=
  mkStats (total s) (pending s) (conflicts s + 1) (approved s).
Definition incr_approved (s : stats) : stats :=
  mkStats (total s) (pending s) (conflicts s) (approved s + 1).

Definition zero_stats : stats := mkStats 0 0 0 0.

(** [if district not in districts_data: districts_data[district] = {...}]
    (lines 80-86); a new key goes last. *)
Definition with_key (d : json) (dd : districts) : districts :=
  if negb (dd_mem d dd) then dd ++ [(d, zero_stats)] else dd.

(** The global counts of one record (lines 71-77). *)
Definition global_counts (status overlap protected : json) (st : tally) : tally :=
  if py_eq status (JStr "Approved") then
    mkTally (approved_claims st + 1) (pending_claims st) (conflict_claims st)
            (districts_data st)
  else if py_eq status (JStr "Pending") then
    mkTally (approved_claims st) (pending_claims st + 1) (conflict_claims st)
            (districts_data st)
  else if py_eq status (JStr "Conflict") || truthy overlap || truthy protected then
    mkTally (approved_claims st) (pending_claims st) (conflict_claims st + 1)
            (districts_data st)
  else st.

(** The district counts of one record (lines 80-97). *)
Definition district_counts (district status overlap protected : json)
    (dd : districts) : result districts :=
  _ <- py_hash district ;;
  let dd := with_key district dd in
  let dd := dd_update district incr_total dd in
  let dd := if py_eq status (JStr "Pending") then dd_update district incr_pending dd
            else if py_eq status (JStr "Approved") then dd_update district incr_approved dd
            else dd in
  let dd := if truthy overlap || truthy protected || py_eq status (JStr "Conflict")
            then dd_update district incr_conflicts dd else dd in
  Ok dd.

(** Body of [for feature in features] (lines 63-97). *)
Definition tally_step (st : tally) (feature : json) : result tally :=
  props <- py_get feature "properties" (JDict []) ;;
  district <- py_get props "district" (JStr "Unknown") ;;
  status <- py_get props "status" (JStr "Unknown") ;;
  overlap <- py_get props "overlap" (JBool false) ;;
  protected <- py_get props "protected_zone" (JBool false) ;;
  let st := global_counts status overlap protected st in
  dd <- district_counts district status overlap protected (districts_data st) ;;
  Ok (mkTally (approved_claims st) (pending_claims st) (conflict_claims st) dd).

Definition tally_init : tally := mkTally 0 0 0 [].

(** The tally pass. *)
Definition tally_features (features : json) : result tally :=
  for_each tally_step (py_iter features) tally_init.

(** One element of [district_rankings]. *)
Record ranking : Type := mkRanking {
  district : json;
  total_claims : Z;
  r_pending : Z;
  r_conflicts : Z;
  risk_score : float;
  risk_level : string
}.

(** The unrounded [risk_score] of lines 106-111. *)
Definition raw_risk_score (s : stats) : result float :=
  p <- truediv (pending s) (total s) ;;
  let pending_pct := (p * 100)%float in
  c <- truediv (conflicts s) (total s) ;;
  let conflict_pct := (c * 100)%float in
  Ok ((pending_pct * 0.5) + (conflict_pct * 0.5))%float.

(** Lines 114-119; [risk_score <= 40] compares with the int [40]. *)
Definition classify (risk_score : float) : string :=
  if (risk_score <=? 40)%float then "Low"
  else if (risk_score <=? 70)%float then "Moderate"
  else "High".

(** Body of [for name, stats in districts_data.items()] (lines 101-128). *)
Definition rank_step (acc : list ranking) (item : json * stats)
  : result (list ranking) :=
  let (name, s) := item in
  if total s =? 0 then Ok acc
  else
    score <- raw_risk_score s ;;
    Ok (acc ++ [mkRanking name (total s) (pending s) (conflicts s)
                          (py_round_float 2 score) (classify score)]).

Definition rank_districts (dd : districts) : result (list ranking) :=
  for_each rank_step dd [].

(** [list.sort(key=..., reverse=True)]: a stable sort into non-increasing
    key order that compares keys with [<].  An entry goes behind the
    entries of strictly greater key and in front of the first entry whose
    key is not greater, so equal keys keep their order. *)
Fixpoint insert_desc (x : ranking) (l : list ranking) : list ranking :=
  match l with
  | [] => [x]
  | y :: l' =>
      if (risk_score x <? risk_score y)%float then y :: insert_desc x l'
      else x :: y :: l'
  end.

Definition sort_desc (l : list ranking) : list ranking :=
  fold_right insert_desc [] l.

Record summary : Type := mkSummary {
  s_total_claims : Z;
  s_approved_claims : Z;
  s_pending_claims : Z;
  s_conflict_claims : Z;
  approved_pct : pynum;
  pending_pct : pynum
}.

(** [round((count / total_claims * 100) if total_claims else 0, 1)] *)
Definition pct (count total_claims : Z) : result pynum :=
  v <- (if negb (total_claims =? 0)
        then q <- truediv count total_claims ;; Ok (PyFloat (q * 100)%float)
        else Ok (PyInt 0)) ;;
  Ok (py_round 1 v).

(** The body of the [try] once the store has been read (lines 52-143). *)
Definition compute (data : json) : result (summary * list ranking) :=
  features <- py_get data "features" (JList []) ;;
  total_claims <- py_len features ;;
  st <- tally_features features ;;
  district_rankings <- rank_districts (districts_data st) ;;
  let district_rankings := sort_desc district_rankings in
  approved_pct <- pct (approved_claims st) total_claims ;;
  pending_pct <- pct (pending_claims st) total_claims ;;
  Ok (mkSummary total_claims (approved_claims st) (pending_claims st)
                (conflict_claims st) approved_pct pending_pct,
      district_rankings).

Inductive analytics_response : Type :=
| AnalyticsError (error : string)
| Analytics (s : summary) (districts : list ranking).

(** [get_analytics()]; [store] is what [open] and [json.load] give for
    [DATA_FILE]. *)
Definition get_analytics (store : result json) : analytics_response :=
  match (data <- store ;; compute data) with
  | Ok (s, ds) => Analytics s ds
  | Raise e => AnalyticsError (exn_str e)
  end.

(* ===================================================================== *)
(** ** [generate_report] *)

(** What the handler finds outside the process: the environment variable,
    the claim store and the text-generation service.  The service receives
    the prompt, which is a fixed template around the fields of one ranking
    entry, and returns the generated text or raises. *)
Record world : Type := mkWorld {
  GEMINI_API_KEY : option string;
  DATA_FILE : result json;
  generate_content : ranking -> result string
}.

Inductive event : Type :=
| ReadStore
| CallService (prompt : ranking).

Inductive report_response : Type :=
| ReportError (error : string)
| Report (district : string) (reportText : string).

(** [not os.getenv("GEMINI_API_KEY") or os.getenv("GEMINI_API_KEY") ==
    "your_gemini_api_key_here"] *)
Definition key_unconfigured (key : option string) : bool :=
  match key with
  | None => true
  | Some k => String.eqb k "" || String.eqb k "your_gemini_api_key_here"
  end.

(** [next((d for d in districts_data if d["district"] == district), None)] *)
Definition find_district (name : string) (ds : list ranking) : option ranking :=
  find (fun d => py_eq (district d) (JStr name)) ds.

Definition config_error : string :=
  "Google Gemini API Key is not configured in the backend .env file. Please add it to generate reports.".

(** [generate_report(district)]: the response and the external effects
    performed, in order. *)
Definition generate_report (w : world) (name : string)
  : report_response * list event :=
  if key_unconfigured (GEMINI_API_KEY w) then
    (ReportError config_error, [])
  else
    match get_analytics (DATA_FILE w) with
    | AnalyticsError error =>
        (ReportError ("Failed to gather analytics for report: " ++ error)%string,
         [ReadStore])
    | Analytics _ districts_data =>
        match find_district name districts_data with
        | None =>
            (ReportError ("No data found for district: " ++ name)%string,
             [ReadStore])
        | Some target_data =>
            match generate_content w target_data with
            | Ok text =>
                (Report name text, [ReadStore; CallService target_data])
            | Raise e =>
                (ReportError ("AI Generation Failed: " ++ exn_str e)%string,
                 [ReadStore; CallService target_data])
            end
        end
    end.

(* ===================================================================== *)
(** ** Sample runs *)

Definition feature (props : list (string * json)) : json :=
  JDict [("type", JStr "Feature"); ("properties", JDict props)].

Definition collection (features : list json) : json :=
  JDict [("type", JStr "FeatureCollection"); ("features", JList features)].

(** (district A, Pending), (district A, Approved, overlap), (district B,
    Conflict) *)
Definition three_features : list json :=
  [ feature [("district", JStr "A"); ("status", JStr "Pending")];
    feature [("district", JStr "A"); ("status", JStr "Approved");
             ("overlap", JBool true)];
    feature [("district", JStr "B"); ("status", JStr "Conflict")] ].

Definition three_records : json := collection three_features.

(** Records with missing fields: no [status]; no [district] and no
    [status] but a flag; no [properties] at all. *)
Definition sparse_features : list json :=
  [ feature [("district", JStr "A")];
    feature [("protected_zone", JBool true)];
    JDict [("type", JStr "Feature")] ].

Definition sparse_records : json := collection sparse_features.

(** A pending record of district A inside a protected zone. *)
Definition pending_flagged : json :=
  feature [("district", JStr "A"); ("status", JStr "Pending");
           ("protected_zone", JBool true)].

Definition sample_world : world :=
  mkWorld (Some "secret") (Ok three_records) (fun _ => Ok "report").
Definition unconfigured_world : world :=
  mkWorld (Some "your_gemini_api_key_here") (Ok three_records)
          (fun _ => Ok "report").

(* ===================================================================== *)
(** ** Vocabulary of the specification *)

(** [districts_data.get(d)] *)
Definition dd_get (d : json) (dd : districts) : option stats :=
  match find_slot d dd with
  | Some i => option_map snd (nth_error dd i)
  | None => None
  end.

(** The aggregate of [d], all-zero before its first record. *)
Definition dd_stats (d : json) (dd : districts) : stats :=
  match dd_get d dd with Some s => s | None => zero_stats end.

(** What one record adds to the aggregate of its district. *)
Definition bump (status overlap protected : json) (s : stats) : stats :=
  let s := incr_total s in
  let s := if py_eq status (JStr "Pending") then incr_pending s
           else if py_eq status (JStr "Approved") then incr_approved s
           else s in
  if truthy overlap || truthy protected || py_eq status (JStr "Conflict")
  then incr_conflicts s else s.

Definition hashable (v : json) : bool :=
  match v with
  | JList _ | JDict _ => false
  | _ => true
  end.

(** A well-formed record: a mapping whose [properties], when present, is a
    mapping, and whose [district], when present, can key a dict.  Any of
    the four fields may be missing. *)
Definition valid_record (feature : json) : bool :=
  match feature with
  | JDict items =>
      match assoc "properties" items with
      | None => true
      | Some (JDict props) =>
          match assoc "district" props with
          | None => true
          | Some d => hashable d
          end
      | Some _ => false
      end
  | _ => false
  end.

(** A well-formed document: a mapping whose [features], when present, is a
    list of well-formed records. *)
Definition valid_collection (data : json) : bool :=
  match data with
  | JDict items =>
      match assoc "features" items with
      | None => true
      | Some (JList features) => forallb valid_record features
      | Some _ => false
      end
  | _ => false
  end.

(** The records of a document. *)
Definition records (data : json) : list json :=
  match data with
  | JDict items =>
      match assoc "features" items with
      | Some v => py_iter v
      | None => []
      end
  | _ => []
  end.

(** [sum(d["total_claims"] for d in districts)] *)
Definition sum_totals (ds : list ranking) : Z :=
  fold_right (fun r acc => total_claims r + acc) 0 ds.

Definition dd_sum_total (dd : districts) : Z :=
  fold_right (fun kv acc => total (snd kv) + acc) 0 dd.

(** Bounds every aggregate satisfies after the tally pass. *)
Definition stats_ok (s : stats) : Prop :=
  1 <= total s /\ 0 <= pending s /\ 0 <= approved s /\
  0 <= conflicts s <= total s /\ pending s + approved s <= total s.

(** Each entry's [risk_score] is [>=] that of the next entry. *)
Fixpoint sorted_desc (l : list ranking) : Prop :=
  match l with
  | [] => True
  | x :: l' =>
      match l' with
      | [] => True
      | y :: _ => (risk_score y <=? risk_score x)%float = true
      end /\ sorted_desc l'
  end.

(** The claimed outcome of the three-record example of the specification,
    on the aggregates [dd] and the response [resp]. *)
Definition example_outcome_claimed (dd : districts) (resp : analytics_response)
  : Prop :=
  dd_get (JStr "A") dd = Some (mkStats 2 1 1 1) /\
  dd_get (JStr "B") dd = Some (mkStats 1 0 1 0) /\
  exists s ds rA rB,
    resp = Analytics s ds /\
    In rA ds /\ district rA = JStr "A" /\ total_claims rA = 2 /\
    r_pending rA = 1 /\ r_conflicts rA = 1 /\
    risk_score rA = 25%float /\ risk_level rA = "Low" /\
    In rB ds /\ district rB = JStr "B" /\ total_claims rB = 1 /\
    r_pending rB = 0 /\ r_conflicts rB = 1 /\
    risk_score rB = 50%float /\ risk_level rB = "Moderate" /\
    s_total_claims s = 3 /\ s_approved_claims s = 1 /\
    s_pending_claims s = 1 /\ s_conflict_claims s = 1.

(** Invariant of the tally pass after [n] records. *)
Definition tally_inv (n : nat) (st : tally) : Prop :=
  dd_sum_total (districts_data st) = Z.of_nat n /\
  Forall (fun kv => stats_ok (snd kv)) (districts_data st) /\
  0 <= approved_claims st /\ 0 <= pending_claims st /\ 0 <= conflict_claims st /\
  approved_claims st + pending_claims st + conflict_claims st <= Z.of_nat n.

(** The value of [raw_risk_score] when [total] is not zero. *)
Definition score_of (s : stats) : float :=
  ((float_of_int (pending s) / float_of_int (total s) * 100) * 0.5
   + (float_of_int (conflicts s) / float_of_int (total s) * 100) * 0.5)%float.

(** The ranking entry of one aggregate. *)
Definition rank_of (item : json * stats) : ranking :=
  let (name, s) := item in
  mkRanking name (total s) (pending s) (conflicts s)
            (py_round_float 2 (score_of s)) (classify (score_of s)).

Definition nonzero_total (item : json * stats) : bool :=
  negb (total (snd item) =? 0).

(** The value of [pct]. *)
Definition pct_of (count total_claims : Z) : pynum :=
  py_round 1 (if negb (total_claims =? 0)
              then PyFloat (float_of_int count / float_of_int total_claims * 100)%float
              else PyInt 0).

(** The properties of a record, empty when the key is missing. *)
Definition props_of (feature : json) : list (string * json) :=
  match feature with
  | JDict items =>
      match assoc "properties" items with
      | Some (JDict props) => props
      | _ => []
      end
  | _ => []
  end.

(** A field of a record as the loop body reads it. *)
Definition field (key : string) (default : json) (feature : json) : json :=
  match assoc key (props_of feature) with
  | Some v => v
  | None => default
  end.

Definition f_district := field "district" (JStr "Unknown").
Definition f_status := field "status" (JStr "Unknown").
Definition f_overlap := field "overlap" (JBool false).
Definition f_protected := field "protected_zone" (JBool false).

(** A record carries a conflict flag. *)
Definition flagged (feature : json) : bool :=
  truthy (f_overlap feature) || truthy (f_protected feature).

(* ===================================================================== *)
(** ** Vocabulary of the floating-point bounds

    The bounds on the risk score are proved on the specification of the
    primitive floats ([SpecFloat], binary64: 53 digits, [emax] 1024), with
    the value of a finite float read as a real number. *)

Definition bpow (e : Z) : R := powerRZ 2 e.

(** The value [m * 2^e]. *)
Definition F2R (m e : Z) : R := (IZR m * bpow e)%R.

(** A round or sticky bit is set. *)
Definition inexact (mrs : shr_record) : bool := shr_r mrs || shr_s mrs.

(** The record [mrs] at exponent [e] approximates [v] from below, and its
    round and sticky bits are clear when it is [v] exactly. *)
Definition below (v : R) (mrs : shr_record) (e : Z) : Prop :=
  0 <= shr_m mrs /\ (F2R (shr_m mrs) e <= v)%R /\
  (inexact mrs = true -> (F2R (shr_m mrs) e < v)%R).

(** A float that is [+0] or positive finite, of value at most [a]. *)
Definition nonneg_le (x : float) (a : R) : Prop :=
  (0 <= a)%R /\
  (Prim2SF x = S754_zero false \/
   exists m e, Prim2SF x = S754_finite false m e /\ (F2R (Z.pos m) e <= a)%R).

Definition not_nan (x : float) : Prop := Prim2SF x <> S754_nan.

(** [f] is the float nearest to a decimal [n / 100] of the range [0, 100]:
    what [round(_, 2)] returns on a score. *)
Definition two_decimals (f : float) : Prop :=
  exists n, 0 <= n <= 10000 /\ f = (float_of_int n / float_of_int 100)%float.

(* ===================================================================== *)
(** ** The other handlers *)

(** [get_claims()]: the stored document as it is, or the error payload. *)
Definition get_claims (store : result json) : json :=
  match store with
  | Ok data => data
  | Raise e => JDict [("error", JStr (exn_str e))]
  end.

(** [health_check()] *)
Definition health_check : json := JDict [("status", JStr "healthy")].

(* ===================================================================== *)
(** ** Vocabulary of the further properties *)

(** The documents on which [compute] returns: a mapping whose [features] is
    missing, a list of well-formed records, or an empty string or mapping
    (which have a length and no element). *)
Definition accepted (data : json) : bool :=
  match data with
  | JDict items =>
      match assoc "features" items with
      | None => true
      | Some (JList features) => forallb valid_record features
      | Some (JStr s) => String.eqb s ""
      | Some (JDict kvs) => match kvs with [] => true | _ => false end
      | Some _ => false
      end
  | _ => false
  end.

(** [status == "Approved"], [status == "Pending"] on a record. *)
Definition is_approved (feature : json) : bool :=
  py_eq (f_status feature) (JStr "Approved").
Definition is_pending (feature : json) : bool :=
  py_eq (f_status feature) (JStr "Pending").

(** The conflict test of the district counts (line 96). *)
Definition district_conflict (feature : json) : bool :=
  truthy (f_overlap feature) || truthy (f_protected feature)
  || py_eq (f_status feature) (JStr "Conflict").

(** The conflict test of the global counts, reached only by records that
    are neither Approved nor Pending (lines 71-77). *)
Definition global_conflict (feature : json) : bool :=
  negb (is_approved feature) && negb (is_pending feature)
  && (py_eq (f_status feature) (JStr "Conflict")
      || truthy (f_overlap feature) || truthy (f_protected feature)).

(** [district == name] on a record. *)
Definition in_district (name : string) (feature : json) : bool :=
  py_eq (f_district feature) (JStr name).

(** Number of records that satisfy [p]. *)
Definition count (p : json -> bool) (l : list json) : Z :=
  Z.of_nat (List.length (filter p l)).

(** Sum of one counter over the aggregates, and over the ranking. *)
Definition dd_sum (proj : stats -> Z) (dd : districts) : Z :=
  fold_right (fun kv acc => proj (snd kv) + acc) 0 dd.
Definition rank_sum (proj : ranking -> Z) (ds : list ranking) : Z :=
  fold_right (fun r acc => proj r + acc) 0 ds.

(** The districts of a list of keys in the order of their first
    appearance, after the keys [seen] so far. *)
Fixpoint first_seen (seen : list json) (keys : list json) : list json :=
  match keys with
  | [] => seen
  | d :: rest =>
      if existsb (fun k => key_eq k d) seen then first_seen seen rest
      else first_seen (seen ++ [d]) rest
  end.

(** Two records agree on the four fields the handler reads. *)
Definition same_fields (a b : json) : Prop :=
  f_district a = f_district b /\ f_status a = f_status b /\
  f_overlap a = f_overlap b /\ f_protected a = f_protected b.

(** The three-record example with geometry and extra properties added. *)
Definition three_records_decorated : json :=
  JDict [("features", JList
    [ JDict [("geometry", JDict [("type", JStr "Point");
                                 ("coordinates", JList [JFloat 78.5; JFloat 21.25])]);
             ("properties", JDict [("claim_id", JInt 7); ("status", JStr "Pending");
                                   ("district", JStr "A")])];
      JDict [("properties", JDict [("district", JStr "A"); ("status", JStr "Approved");
                                   ("overlap", JBool true); ("area", JFloat 1.5)])];
      JDict [("id", JInt 3);
             ("properties", JDict [("protected_zone", JBool false);
                                   ("district", JStr "B"); ("status", JStr "Conflict")])] ])].

(** The entries of a ranking whose [risk_score] is the float [k]. *)
Definition with_score (k : float) (ds : list ranking) : list ranking :=
  filter (fun r => PrimFloat.Leibniz.eqb (risk_score r) k) ds.

(** [f] is the float nearest to a decimal [n / 10] of the range [0, 100]:
    what [round(_, 1)] returns on a percentage. *)
Definition one_decimal (f : float) : Prop :=
  exists n, 0 <= n <= 1000 /\ f = (float_of_int n / float_of_int 10)%float.

(** A store whose document is not a mapping. *)
Definition broken_world : world :=
  mkWorld (Some "secret") (Ok (JList [])) (fun _ => Ok "report").

(** Every quotient [n / d] of the floats of [n] and [d], for
    [lo <= n <= hi], lies between [a] and [b]. *)
Definition quotients_between (d lo hi : Z) (a b : float) : bool :=
  forallb (fun i =>
             let q := (float_of_int (lo + Z.of_nat i) / float_of_int d)%float in
             (a <=? q)%float && (q <=? b)%float)
          (seq 0 (Z.to_nat (hi - lo + 1))).

(** What the handler returns on the three-record example. *)
Definition three_summary : summary :=
  mkSummary 3 1 1 1 (PyFloat 33.3) (PyFloat 33.3).
Definition three_ranking : list ranking :=
  [ mkRanking (JStr "A") 2 1 1 50 "Moderate";
    mkRanking (JStr "B") 1 0 1 50 "Moderate" ].

(** The three-record example with its records in the reverse order. *)
Definition three_records_reversed : json := collection (rev three_features).

(** The exceptions of a document that is read but has the wrong shape:
    [.get] on a value that is no mapping, [len] of a value without length,
    a list or a mapping used as a dict key. *)
Definition input_error (e : exn) : bool :=
  match e with
  | AttributeError ty attr => String.eqb attr "get" && negb (String.eqb ty "dict")
  | TypeError_len ty => existsb (String.eqb ty) ["NoneType"; "bool"; "int"; "float"]
  | TypeError_unhashable ty => existsb (String.eqb ty) ["list"; "dict"]
  | ZeroDivisionError | IOFailure _ => false
  end.

(** The exception one record raises in the loop body, if any: on
    [feature.get], on [props.get] or on the dict lookup of its district. *)
Definition record_error (feature : json) : option exn :=
  match py_get feature "properties" (JDict []) with
  | Raise e => Some e
  | Ok props =>
      match py_get props "district" (JStr "Unknown") with
      | Raise e => Some e
      | Ok district =>
          match py_hash district with
          | Raise e => Some e
          | Ok _ => None
          end
      end
  end.

(** A document whose second record is a number. *)
Definition number_among_records : json :=
  collection [ feature [("district", JStr "A")]; JInt 3; JNull ].

(* ===================================================================== *)
(** ** The error monad and the loops *)

Lemma bind_ok {A B : Type} (c : result A) (k : A -> result B) (b : B) :
  bind c k = Ok b -> exists a, c = Ok a /\ k a = Ok b.
Proof. destruct c as [a|e]; simpl; intros H; [eauto | discriminate]. Qed.

Lemma bind_raise {A B : Type} (c : result A) (k : A -> result B) (e : exn) :
  bind c k = Raise e -> c = Raise e \/ exists a, c = Ok a /\ k a = Raise e.
Proof.
  destruct c as [a|e']; simpl; intros H; [right; eauto | left; congruence].
Qed.

(** [bind_inv H x Hx]: from [H : (x <- c ;; k) = Ok _], the value [x] of
    [c], [Hx : c = Ok x] and [H : k x = Ok _]. *)
Ltac bind_inv H x Hx := apply bind_ok in H as (x & Hx & H).

Section Loops.

Context {S A : Type} (body : S -> A -> result S).

(** An invariant of a loop whose body cannot raise on the visited elements. *)
Lemma for_each_invariant (I : nat -> S -> Prop) (Q : A -> Prop) :
  (forall n st x, I n st -> Q x ->
     exists st', body st x = Ok st' /\ I (Datatypes.S n) st') ->
  forall xs n st, Forall Q xs -> I n st ->
  exists st', for_each body xs st = Ok st' /\ I (n + List.length xs)%nat st'.
Proof.
  intros Hstep xs; induction xs as [|x xs IH]; intros n st HQ HI; simpl.
  - exists st; split; [reflexivity|]. now rewrite Nat.add_0_r.
  - inversion HQ as [|? ? Hx Hxs]; subst.
    destruct (Hstep n st x HI Hx) as (st1 & -> & HI1); simpl.
    destruct (IH (Datatypes.S n) st1 Hxs HI1) as (st2 & -> & HI2).
    exists st2; split; [reflexivity|]. now rewrite Nat.add_succ_r.
Qed.

(** The same invariant, read off a run that returned. *)
Lemma for_each_preserves (I : nat -> S -> Prop) :
  (forall n st x st', I n st -> body st x = Ok st' -> I (Datatypes.S n) st') ->
  forall xs n st st', I n st -> for_each body xs st = Ok st' ->
  I (n + List.length xs)%nat st'.
Proof.
  intros Hstep xs; induction xs as [|x xs IH]; intros n st st' HI; simpl.
  - intros [= <-]. now rewrite Nat.add_0_r.
  - intros H. bind_inv H st1 H1.
    rewrite Nat.add_succ_r. apply (IH (Datatypes.S n) st1 st'); eauto.
Qed.

(** What the body never raises, the loop never raises. *)
Lemma for_each_raise (P : exn -> Prop) :
  (forall st x e, body st x = Raise e -> P e) ->
  forall xs st e, for_each body xs st = Raise e -> P e.
Proof.
  intros Hbody xs; induction xs as [|x xs IH]; intros st e; simpl; [discriminate|].
  intros H. apply bind_raise in H as [H | (st' & _ & H)]; eauto.
Qed.

End Loops.

(* ===================================================================== *)
(** ** The aggregate dict *)

Lemma key_eq_refl (d : json) : hashable d = true -> key_eq d d = true.
Proof.
  destruct d; simpl; try discriminate; intros _; unfold key_eq; simpl;
    rewrite ?Z.eqb_refl, ?String.eqb_refl; try reflexivity.
  - now destruct b.
  - unfold PrimFloat.is_nan. now destruct (PrimFloat.eqb f f).
Qed.

Lemma py_hash_hashable (d : json) : py_hash d = Ok tt <-> hashable d = true.
Proof. destruct d; simpl; split; intros H; congruence. Qed.

Lemma find_slot_lt d dd i : find_slot d dd = Some i -> (i < List.length dd)%nat.
Proof.
  revert i; induction dd as [|[k v] dd IH]; intros i; simpl; [discriminate|].
  destruct (key_eq k d); [intros [= <-]; lia|].
  destruct (find_slot d dd) as [j|]; simpl; [|discriminate].
  intros [= <-]. specialize (IH j eq_refl). lia.
Qed.

Lemma find_slot_app_new d dd z :
  hashable d = true -> find_slot d dd = None ->
  find_slot d (dd ++ [(d, z)]) = Some (List.length dd).
Proof.
  intros Hd; induction dd as [|[k v] dd IH]; simpl; intros H.
  - now rewrite key_eq_refl.
  - destruct (key_eq k d); [discriminate|].
    destruct (find_slot d dd); [discriminate|]. now rewrite IH.
Qed.

Lemma find_slot_update_at d i f dd :
  find_slot d (update_at i f dd) = find_slot d dd.
Proof.
  revert i; induction dd as [|[k v] dd IH]; intros i; simpl; [reflexivity|].
  destruct i; simpl; [reflexivity|]. now rewrite IH.
Qed.

Lemma update_at_compose i f g dd :
  update_at i f (update_at i g dd) = update_at i (fun s => f (g s)) dd.
Proof.
  revert i; induction dd as [|[k v] dd IH]; intros i; simpl; [reflexivity|].
  destruct i; simpl; [reflexivity|]. now rewrite IH.
Qed.

Lemma nth_error_update_at i f dd :
  option_map snd (nth_error (update_at i f dd) i)
  = option_map f (option_map snd (nth_error dd i)).
Proof.
  revert i; induction dd as [|[k v] dd IH]; intros i; simpl.
  - now destruct i.
  - destruct i; simpl; [reflexivity|]. apply IH.
Qed.

(** The three updates of one record act as [bump] on the entry of the
    district, which exists by then. *)
Lemma district_counts_shape d status overlap protected dd :
  hashable d = true ->
  exists i, find_slot d (with_key d dd) = Some i /\
    district_counts d status overlap protected dd
    = Ok (update_at i (bump status overlap protected) (with_key d dd)).
Proof.
  intros Hd. unfold district_counts.
  apply py_hash_hashable in Hd as Hh. rewrite Hh; simpl.
  assert (Hslot : exists i, find_slot d (with_key d dd) = Some i).
  { unfold with_key, dd_mem. destruct (find_slot d dd) as [i|] eqn:E; simpl.
    - eauto.
    - eexists. now apply find_slot_app_new. }
  destruct Hslot as (i & Hi). exists i; split; [exact Hi|].
  f_equal. unfold dd_update, bump.
  rewrite Hi.
  destruct (py_eq status (JStr "Pending"));
    [| destruct (py_eq status (JStr "Approved"))];
    destruct (truthy overlap || truthy protected || py_eq status (JStr "Conflict"));
    repeat first [rewrite find_slot_update_at | rewrite Hi | rewrite update_at_compose];
    reflexivity.
Qed.

Lemma dd_get_update_at d i f dd :
  find_slot d dd = Some i ->
  dd_get d (update_at i f dd) = option_map f (dd_get d dd).
Proof.
  intros Hi. unfold dd_get. rewrite find_slot_update_at, Hi.
  apply nth_error_update_at.
Qed.

Lemma dd_get_with_key d dd :
  hashable d = true -> dd_get d (with_key d dd) = Some (dd_stats d dd).
Proof.
  intros Hd. unfold with_key, dd_stats, dd_mem, dd_get.
  destruct (find_slot d dd) as [i|] eqn:E; simpl.
  - rewrite E. pose proof (find_slot_lt _ _ _ E) as Hlt.
    destruct (nth_error dd i) eqn:En; simpl; [reflexivity|].
    apply nth_error_None in En. lia.
  - rewrite find_slot_app_new by assumption.
    rewrite nth_error_app2 by lia. now rewrite Nat.sub_diag.
Qed.

(** The aggregate of the record's district after the step. *)
Lemma district_counts_get d status overlap protected dd :
  hashable d = true ->
  exists dd', district_counts d status overlap protected dd = Ok dd' /\
    dd_get d dd' = Some (bump status overlap protected (dd_stats d dd)).
Proof.
  intros Hd.
  destruct (district_counts_shape d status overlap protected dd Hd) as (i & Hi & ->).
  eexists; split; [reflexivity|].
  rewrite dd_get_update_at by assumption. now rewrite dd_get_with_key.
Qed.

Lemma update_at_app_last f dd k v :
  update_at (List.length dd) f (dd ++ [(k, v)]) = dd ++ [(k, f v)].
Proof.
  induction dd as [|[k' v'] dd IH]; simpl; [reflexivity|]. now rewrite IH.
Qed.

Lemma dd_sum_total_app dd1 dd2 :
  dd_sum_total (dd1 ++ dd2) = dd_sum_total dd1 + dd_sum_total dd2.
Proof.
  induction dd1 as [|[k v] dd1 IH]; simpl; [reflexivity|]. rewrite IH. lia.
Qed.

Lemma dd_sum_total_update_at i f dd :
  (i < List.length dd)%nat -> (forall s, total (f s) = total s + 1) ->
  dd_sum_total (update_at i f dd) = dd_sum_total dd + 1.
Proof.
  intros Hi Hf; revert i Hi; induction dd as [|[k v] dd IH]; intros i Hi; simpl in *.
  - lia.
  - destruct i; simpl; [rewrite Hf; lia|]. rewrite IH by lia. lia.
Qed.

Lemma Forall_update_at (P : stats -> Prop) i f dd :
  (forall s, P s -> P (f s)) ->
  Forall (fun kv => P (snd kv)) dd ->
  Forall (fun kv => P (snd kv)) (update_at i f dd).
Proof.
  intros Hf H; revert i; induction H as [|[k v] dd Hv Hdd IH]; intros i; simpl.
  - constructor.
  - destruct i; constructor; simpl in *; auto.
Qed.

Lemma total_bump status overlap protected s :
  total (bump status overlap protected s) = total s + 1.
Proof.
  unfold bump.
  destruct (py_eq status (JStr "Pending"));
    [| destruct (py_eq status (JStr "Approved"))];
    destruct (truthy overlap || truthy protected || py_eq status (JStr "Conflict"));
    reflexivity.
Qed.

(** Counters that are zero or satisfy [stats_ok] satisfy it after a record. *)
Lemma stats_ok_bump status overlap protected s :
  s = zero_stats \/ stats_ok s -> stats_ok (bump status overlap protected s).
Proof.
  unfold stats_ok, bump.
  intros [-> | H];
  destruct (py_eq status (JStr "Pending"));
    [| destruct (py_eq status (JStr "Approved")) | | destruct (py_eq status (JStr "Approved"))];
    destruct (truthy overlap || truthy protected || py_eq status (JStr "Conflict"));
    simpl in *; lia.
Qed.

(** One record on the aggregates: the sum of the totals grows by one and
    every aggregate keeps its bounds. *)
Lemma district_counts_invariant d status overlap protected dd dd' :
  district_counts d status overlap protected dd = Ok dd' ->
  Forall (fun kv => stats_ok (snd kv)) dd ->
  dd_sum_total dd' = dd_sum_total dd + 1 /\
  Forall (fun kv => stats_ok (snd kv)) dd'.
Proof.
  intros H Hok.
  assert (Hd : hashable d = true).
  { unfold district_counts in H. bind_inv H u Hh. destruct u.
    now apply py_hash_hashable. }
  destruct (district_counts_shape d status overlap protected dd Hd) as (i & Hi & E).
  rewrite E in H; injection H as <-.
  unfold with_key, dd_mem in *.
  destruct (find_slot d dd) as [j|] eqn:Ej; simpl in *.
  - assert (j = i) as -> by congruence.
    split.
    + apply dd_sum_total_update_at; [eapply find_slot_lt; eauto | apply total_bump].
    + apply Forall_update_at; [|assumption].
      intros s Hs. apply stats_ok_bump. now right.
  - rewrite find_slot_app_new in Hi by assumption. injection Hi as <-.
    rewrite update_at_app_last. split.
    + rewrite dd_sum_total_app. simpl. rewrite total_bump. simpl. lia.
    + apply Forall_app; split; [assumption|].
      constructor; [|constructor]. simpl. apply stats_ok_bump. now left.
Qed.

(** A step that returns has read the four fields and found the district
    hashable. *)
Lemma tally_step_ok st feature st' :
  tally_step st feature = Ok st' ->
  exists props d status overlap protected dd',
    py_get feature "properties" (JDict []) = Ok props /\
    py_get props "district" (JStr "Unknown") = Ok d /\
    py_get props "status" (JStr "Unknown") = Ok status /\
    py_get props "overlap" (JBool false) = Ok overlap /\
    py_get props "protected_zone" (JBool false) = Ok protected /\
    district_counts d status overlap protected (districts_data st) = Ok dd' /\
    let g := global_counts status overlap protected st in
    st' = mkTally (approved_claims g) (pending_claims g) (conflict_claims g) dd'.
Proof.
  unfold tally_step. intros H.
  bind_inv H props Hp. bind_inv H d Hd. bind_inv H status Hs.
  bind_inv H overlap Ho. bind_inv H protected Hz. bind_inv H dd' Hdd.
  injection H as <-.
  exists props, d, status, overlap, protected, dd'.
  repeat split; try assumption.
  destruct (global_counts status overlap protected st) eqn:E.
  unfold global_counts in E.
  destruct (py_eq status (JStr "Approved")); [injection E as <- <- <- <-; assumption|].
  destruct (py_eq status (JStr "Pending")); [injection E as <- <- <- <-; assumption|].
  destruct (py_eq status (JStr "Conflict") || truthy overlap || truthy protected);
    [injection E as <- <- <- <-; assumption|].
  rewrite E in *. assumption.
Qed.

Lemma districts_data_global_counts status overlap protected st :
  districts_data (global_counts status overlap protected st) = districts_data st.
Proof.
  unfold global_counts.
  destruct (py_eq status (JStr "Approved")); [reflexivity|].
  destruct (py_eq status (JStr "Pending")); [reflexivity|].
  now destruct (py_eq status (JStr "Conflict") || truthy overlap || truthy protected).
Qed.

(* ===================================================================== *)
(** ** The tally pass *)

Lemma global_counts_bounds status overlap protected st :
  let g := global_counts status overlap protected st in
  approved_claims st <= approved_claims g /\
  pending_claims st <= pending_claims g /\
  conflict_claims st <= conflict_claims g /\
  approved_claims g + pending_claims g + conflict_claims g
  <= approved_claims st + pending_claims st + conflict_claims st + 1.
Proof.
  unfold global_counts.
  destruct (py_eq status (JStr "Approved")); [simpl; lia|].
  destruct (py_eq status (JStr "Pending")); [simpl; lia|].
  destruct (py_eq status (JStr "Conflict") || truthy overlap || truthy protected);
    simpl; lia.
Qed.

Lemma tally_step_inv n st feature st' :
  tally_inv n st -> tally_step st feature = Ok st' -> tally_inv (S n) st'.
Proof.
  intros (Hsum & Hok & Ha & Hp & Hc & Hle) H.
  apply tally_step_ok in H
    as (props & d & status & overlap & protected & dd' & _ & _ & _ & _ & _ & Hdd & ->).
  destruct (district_counts_invariant _ _ _ _ _ _ Hdd Hok) as (Hsum' & Hok').
  pose proof (global_counts_bounds status overlap protected st) as Hg.
  unfold tally_inv.
  cbn [districts_data approved_claims pending_claims conflict_claims] in *.
  rewrite Hsum', Hsum, Nat2Z.inj_succ.
  repeat split; try assumption; lia.
Qed.

Lemma tally_init_inv : tally_inv 0 tally_init.
Proof. unfold tally_inv, tally_init; simpl. repeat split; try lia. constructor. Qed.

Lemma tally_features_inv features st :
  tally_features features = Ok st ->
  tally_inv (List.length (py_iter features)) st.
Proof.
  intros H.
  exact (for_each_preserves tally_step tally_inv tally_step_inv _ O _ _
           tally_init_inv H).
Qed.

Lemma py_len_iter features n :
  py_len features = Ok n -> n = Z.of_nat (List.length (py_iter features)).
Proof.
  destruct features; simpl; try discriminate; intros [= <-].
  - rewrite length_map. f_equal.
    induction s as [|c s IH]; simpl; [reflexivity | now rewrite IH].
  - reflexivity.
  - now rewrite length_map.
Qed.

(** The step on a well-formed record, in terms of its fields. *)
Lemma tally_step_valid st feature :
  valid_record feature = true ->
  hashable (f_district feature) = true /\
  exists dd',
    district_counts (f_district feature) (f_status feature) (f_overlap feature)
                    (f_protected feature) (districts_data st) = Ok dd' /\
    let g := global_counts (f_status feature) (f_overlap feature)
                           (f_protected feature) st in
    tally_step st feature
    = Ok (mkTally (approved_claims g) (pending_claims g) (conflict_claims g) dd').
Proof.
  intros Hv.
  assert (Hd : hashable (f_district feature) = true).
  { unfold f_district, field, props_of, valid_record in *.
    destruct feature; try discriminate.
    destruct (assoc "properties" items) as [[]|]; try discriminate; simpl; auto.
    destruct (assoc "district" items0); auto. }
  split; [exact Hd|].
  destruct (district_counts_shape (f_district feature) (f_status feature)
              (f_overlap feature) (f_protected feature) (districts_data st) Hd)
    as (i & Hi & E).
  eexists; split; [exact E|].
  unfold tally_step, valid_record in *.
  destruct feature; try discriminate.
  unfold f_district, f_status, f_overlap, f_protected, field, props_of in *.
  cbn [py_get bind].
  destruct (assoc "properties" items) as [[]|]; try discriminate;
    cbn [py_get bind assoc] in E |- *;
    rewrite districts_data_global_counts, E; reflexivity.
Qed.

Lemma tally_valid features :
  forallb valid_record features = true ->
  exists st, for_each tally_step features tally_init = Ok st /\
             tally_inv (List.length features) st.
Proof.
  intros Hv.
  apply (for_each_invariant tally_step tally_inv (fun f => valid_record f = true))
    with (n := O).
  - intros n st x HI Hx.
    destruct (tally_step_valid st x Hx) as (_ & dd' & _ & E).
    eexists; split; [exact E|]. eapply tally_step_inv; eauto.
  - now apply Forall_forall, forallb_forall.
  - apply tally_init_inv.
Qed.

(* ===================================================================== *)
(** ** Ranking and summary *)

Lemma truediv_nonzero a b :
  b <> 0 -> truediv a b = Ok (float_of_int a / float_of_int b)%float.
Proof. intros Hb. unfold truediv. now apply Z.eqb_neq in Hb as ->. Qed.

Lemma raw_risk_score_nonzero s :
  total s <> 0 -> raw_risk_score s = Ok (score_of s).
Proof.
  intros Ht. unfold raw_risk_score. now rewrite !truediv_nonzero by assumption.
Qed.

Lemma rank_districts_acc dd acc :
  for_each rank_step dd acc = Ok (acc ++ map rank_of (filter nonzero_total dd)).
Proof.
  revert acc; induction dd as [|[name s] dd IH]; intros acc; simpl.
  - now rewrite app_nil_r.
  - unfold nonzero_total at 1; simpl.
    destruct (total s =? 0) eqn:E; simpl; [apply IH|].
    apply Z.eqb_neq in E. rewrite raw_risk_score_nonzero by assumption; simpl.
    rewrite IH, <- app_assoc. reflexivity.
Qed.

(** The ranking loop never raises: the [total == 0] guard protects both
    divisions. *)
Lemma rank_districts_eq dd :
  rank_districts dd = Ok (map rank_of (filter nonzero_total dd)).
Proof. apply rank_districts_acc. Qed.

Lemma pct_eq count total_claims : pct count total_claims = Ok (pct_of count total_claims).
Proof.
  unfold pct, pct_of, truediv.
  destruct (total_claims =? 0); reflexivity.
Qed.

Lemma filter_nonzero_ok dd :
  Forall (fun kv => stats_ok (snd kv)) dd -> filter nonzero_total dd = dd.
Proof.
  induction 1 as [|[k v] dd Hv Hdd IH]; simpl; [reflexivity|].
  unfold nonzero_total at 1; simpl. unfold stats_ok in Hv; simpl in Hv.
  destruct (Z.eqb_spec (total v) 0); [lia|]. simpl. now rewrite IH.
Qed.

Lemma sum_totals_rank_of dd :
  sum_totals (map rank_of dd) = dd_sum_total dd.
Proof.
  induction dd as [|[k v] dd IH]; simpl; [reflexivity|]. now rewrite IH.
Qed.

Lemma sum_totals_insert_desc x l :
  sum_totals (insert_desc x l) = total_claims x + sum_totals l.
Proof.
  induction l as [|y l IH]; simpl; [reflexivity|].
  destruct (risk_score x <? risk_score y)%float; simpl; [rewrite IH|]; lia.
Qed.

Lemma sum_totals_sort_desc l : sum_totals (sort_desc l) = sum_totals l.
Proof.
  induction l as [|x l IH]; simpl; [reflexivity|].
  now rewrite sum_totals_insert_desc, IH.
Qed.

Lemma In_insert_desc r x l : In r (insert_desc x l) <-> r = x \/ In r l.
Proof.
  induction l as [|y l IH]; simpl; [intuition congruence|].
  destruct (risk_score x <? risk_score y)%float; simpl; rewrite ?IH; intuition congruence.
Qed.

Lemma In_sort_desc r l : In r (sort_desc l) <-> In r l.
Proof.
  induction l as [|x l IH]; simpl; [tauto|].
  rewrite In_insert_desc, IH. intuition congruence.
Qed.

Lemma length_insert_desc x l : List.length (insert_desc x l) = S (List.length l).
Proof.
  induction l as [|y l IH]; simpl; [reflexivity|].
  destruct (risk_score x <? risk_score y)%float; simpl; [now rewrite IH | reflexivity].
Qed.

Lemma length_sort_desc l : List.length (sort_desc l) = List.length l.
Proof.
  induction l as [|x l IH]; simpl; [reflexivity|].
  now rewrite length_insert_desc, IH.
Qed.

(** What [compute] returns, when it returns. *)
Lemma compute_ok data s ds :
  compute data = Ok (s, ds) ->
  exists features st,
    py_get data "features" (JList []) = Ok features /\
    tally_features features = Ok st /\
    tally_inv (List.length (py_iter features)) st /\
    s = mkSummary (Z.of_nat (List.length (py_iter features)))
          (approved_claims st) (pending_claims st) (conflict_claims st)
          (pct_of (approved_claims st) (Z.of_nat (List.length (py_iter features))))
          (pct_of (pending_claims st) (Z.of_nat (List.length (py_iter features)))) /\
    ds = sort_desc (map rank_of (districts_data st)).
Proof.
  unfold compute. intros H.
  bind_inv H features Hf. bind_inv H n Hn. bind_inv H st Hst.
  rewrite rank_districts_eq, !pct_eq in H. simpl in H.
  injection H as <- <-.
  apply py_len_iter in Hn as ->.
  pose proof (tally_features_inv _ _ Hst) as HI.
  exists features, st.
  split; [assumption|]. split; [assumption|]. split; [assumption|].
  split; [reflexivity|].
  destruct HI as (_ & Hok & _). now rewrite filter_nonzero_ok.
Qed.

(** [compute] returns on every well-formed document. *)
Lemma compute_valid data :
  valid_collection data = true -> exists s ds, compute data = Ok (s, ds).
Proof.
  intros Hv. unfold compute, valid_collection in *.
  destruct data; try discriminate. simpl.
  assert (H : exists st, tally_features
              match assoc "features" items with Some x => x | None => JList [] end
              = Ok st /\
            exists n, py_len match assoc "features" items with
                             | Some x => x | None => JList [] end = Ok n).
  { destruct (assoc "features" items) as [[]|]; try discriminate.
    - destruct (tally_valid xs Hv) as (st & E & _).
      exists st. split; [exact E | eexists; reflexivity].
    - exists tally_init. split; [reflexivity | eexists; reflexivity]. }
  destruct H as (st & -> & n & ->). simpl.
  rewrite rank_districts_eq, !pct_eq. simpl. eauto.
Qed.

Lemma records_features data features :
  py_get data "features" (JList []) = Ok features ->
  records data = py_iter features.
Proof.
  destruct data; simpl; try discriminate. intros [= <-].
  now destruct (assoc "features" items).
Qed.

(** No aggregate counts more records than the document has. *)
Lemma total_le_sum dd k s :
  Forall (fun kv => stats_ok (snd kv)) dd -> In (k, s) dd ->
  total s <= dd_sum_total dd.
Proof.
  induction 1 as [|[k' s'] dd Hs Hdd IH]; simpl; [intros []|].
  assert (0 <= dd_sum_total dd).
  { clear IH. induction Hdd as [|[k1 s1] dd1 H1 Hdd1 IH1]; simpl; [lia|].
    unfold stats_ok in H1. simpl in H1. lia. }
  unfold stats_ok in Hs. simpl in Hs.
  intros [[= -> ->] | Hin]; [lia|]. specialize (IH Hin). lia.
Qed.

Lemma In_rank_of r dd :
  In r (map rank_of dd) -> exists name agg, In (name, agg) dd /\ r = rank_of (name, agg).
Proof.
  intros H. apply in_map_iff in H as ([name agg] & <- & Hin). eauto.
Qed.

(* ===================================================================== *)
(** * Binary64 arithmetic *)

(** ** Powers of two and scaled integers *)

Lemma bpow_pos e : (0 < bpow e)%R.
Proof. apply powerRZ_lt. lra. Qed.

Lemma bpow_add a b : bpow (a + b) = (bpow a * bpow b)%R.
Proof. apply powerRZ_add. lra. Qed.

Lemma bpow_0 : bpow 0 = 1%R.
Proof. reflexivity. Qed.

Lemma bpow_1 : bpow 1 = 2%R.
Proof. unfold bpow. simpl. lra. Qed.

Lemma bpow_succ e : bpow (e + 1) = (2 * bpow e)%R.
Proof. rewrite bpow_add, bpow_1. lra. Qed.

Lemma bpow_IZR n : 0 <= n -> bpow n = IZR (2 ^ n).
Proof.
  intros Hn. pattern n. apply natlike_ind; [reflexivity | | exact Hn].
  intros x Hx IH. unfold Z.succ. rewrite bpow_succ, IH, Z.pow_add_r by lia.
  rewrite mult_IZR. change (2 ^ 1) with 2. lra.
Qed.

Lemma bpow_le a b : a <= b -> (bpow a <= bpow b)%R.
Proof.
  intros H. replace b with (a + (b - a)) by lia.
  rewrite bpow_add, (bpow_IZR (b - a)) by lia.
  pose proof (bpow_pos a).
  assert (1 <= IZR (2 ^ (b - a)))%R.
  { apply IZR_le. pose proof (Z.pow_pos_nonneg 2 (b - a)). lia. }
  nra.
Qed.

Lemma F2R_le m1 m2 e : m1 <= m2 -> (F2R m1 e <= F2R m2 e)%R.
Proof.
  intros H. unfold F2R. apply IZR_le in H. pose proof (bpow_pos e). nra.
Qed.

Lemma F2R_lt m1 m2 e : m1 < m2 -> (F2R m1 e < F2R m2 e)%R.
Proof.
  intros H. unfold F2R. apply IZR_lt in H. pose proof (bpow_pos e). nra.
Qed.

Lemma F2R_le_inv m1 m2 e : (F2R m1 e <= F2R m2 e)%R -> m1 <= m2.
Proof.
  intros H. destruct (Z_lt_le_dec m2 m1) as [Hlt|]; [|assumption].
  apply (F2R_lt _ _ e) in Hlt. lra.
Qed.

Lemma F2R_lt_inv m1 m2 e : (F2R m1 e < F2R m2 e)%R -> m1 < m2.
Proof.
  intros H. destruct (Z_lt_le_dec m1 m2) as [|Hle]; [assumption|].
  apply (F2R_le _ _ e) in Hle. lra.
Qed.

(** Changing the exponent of a scaled integer. *)
Lemma F2R_shift m e k : 0 <= k -> F2R (m * 2 ^ k) e = F2R m (e + k).
Proof.
  intros Hk. unfold F2R. rewrite mult_IZR, bpow_add, (bpow_IZR k) by assumption. lra.
Qed.

(** ** Number of binary digits *)

Lemma digits2_size p : digits2_pos p = Pos.size p.
Proof. induction p; simpl; congruence. Qed.

Lemma digits_upper p : Z.pos p < 2 ^ Z.pos (digits2_pos p).
Proof.
  rewrite digits2_size. pose proof (Pos.size_gt p) as H.
  apply Pos2Z.pos_lt_pos in H. now rewrite Pos2Z.inj_pow in H.
Qed.

Lemma digits_lower p : 2 ^ (Z.pos (digits2_pos p) - 1) <= Z.pos p.
Proof.
  rewrite digits2_size. pose proof (Pos.size_le p) as H.
  apply Pos2Z.pos_le_pos in H. rewrite Pos2Z.inj_pow in H.
  assert (E : 2 ^ Z.pos (Pos.size p) = 2 * 2 ^ (Z.pos (Pos.size p) - 1)).
  { rewrite <- Z.pow_succ_r by lia. f_equal. lia. }
  lia.
Qed.

Lemma digits_le_of_lt p k : Z.pos p < 2 ^ k -> Z.pos (digits2_pos p) <= k.
Proof.
  intros H. pose proof (digits_lower p) as Hl.
  destruct (Z_lt_le_dec k (Z.pos (digits2_pos p))) as [Hlt|]; [|assumption].
  exfalso. assert (0 <= k).
  { destruct (Z_lt_le_dec k 0) as [Hk|]; [|assumption].
    rewrite Z.pow_neg_r in H by assumption. lia. }
  assert (2 ^ k <= 2 ^ (Z.pos (digits2_pos p) - 1)) by (apply Z.pow_le_mono_r; lia).
  lia.
Qed.

Lemma digits_ge_of_le p k : 2 ^ k <= Z.pos p -> k + 1 <= Z.pos (digits2_pos p).
Proof.
  intros H. pose proof (digits_upper p) as Hu.
  destruct (Z_lt_le_dec (Z.pos (digits2_pos p)) (k + 1)) as [Hlt|]; [|assumption].
  exfalso.
  assert (2 ^ Z.pos (digits2_pos p) <= 2 ^ k) by (apply Z.pow_le_mono_r; lia).
  lia.
Qed.

(** ** Right shifts with round and sticky bits *)

Lemma shr_1_spec mrs :
  0 <= shr_m mrs ->
  shr_m (shr_1 mrs) = shr_m mrs / 2 /\
  inexact (shr_1 mrs) = Z.odd (shr_m mrs) || inexact mrs.
Proof.
  destruct mrs as [m r s]. cbn [shr_m]. intros Hm. unfold inexact, shr_1.
  destruct m as [|[p|p|]|p]; cbn [shr_m shr_r shr_s]; try lia.
  - split; reflexivity.
  - split; [|reflexivity].
    apply Z.div_unique with (r := 1); lia.
  - split; [|reflexivity].
    apply Z.div_unique with (r := 0); lia.
  - split; reflexivity.
Qed.

Lemma F2R_half m e : 0 <= m -> (F2R (m / 2) (e + 1) <= F2R m e)%R.
Proof.
  intros Hm. rewrite <- F2R_shift by lia. apply F2R_le.
  change (2 ^ 1) with 2. pose proof (Z.mul_div_le m 2). lia.
Qed.

Lemma F2R_half_odd m e : 0 <= m -> Z.odd m = true -> (F2R (m / 2) (e + 1) < F2R m e)%R.
Proof.
  intros Hm Ho. rewrite <- F2R_shift by lia. apply F2R_lt.
  change (2 ^ 1) with 2. rewrite (Zdiv.Zodd_mod m) in Ho.
  apply Z.eqb_eq in Ho. pose proof (Z.div_mod m 2). lia.
Qed.

Lemma below_shr_1 v mrs e : below v mrs e -> below v (shr_1 mrs) (e + 1).
Proof.
  intros (Hm & Hle & Hlt).
  destruct (shr_1_spec mrs Hm) as (Em & Ei). unfold below. rewrite Em, Ei.
  pose proof (F2R_half (shr_m mrs) e Hm) as Hh.
  split; [apply Z.div_pos; lia|]. split; [lra|].
  intros H. apply orb_true_iff in H as [Ho | Hi].
  - pose proof (F2R_half_odd (shr_m mrs) e Hm Ho). lra.
  - specialize (Hlt Hi). lra.
Qed.

Lemma iter_pos_invariant {A : Type} (f : A -> A) (K : Z -> A -> Prop) :
  (forall k x, K k x -> K (k + 1) (f x)) ->
  forall p k x, K k x -> K (k + Z.pos p) (SpecFloat.iter_pos f p x).
Proof.
  intros Hf p; induction p as [p IH|p IH|]; intros k x HK; simpl.
  - replace (k + Z.pos p~1) with (k + 1 + Z.pos p + Z.pos p) by lia.
    apply IH, IH, Hf, HK.
  - replace (k + Z.pos p~0) with (k + Z.pos p + Z.pos p) by lia.
    apply IH, IH, HK.
  - apply Hf, HK.
Qed.

Lemma shr_m_iter p mrs :
  0 <= shr_m mrs -> shr_m (SpecFloat.iter_pos shr_1 p mrs) = shr_m mrs / 2 ^ Z.pos p.
Proof.
  intros Hm.
  pose (K := fun k x => 0 <= k /\ 0 <= shr_m x /\ shr_m x = shr_m mrs / 2 ^ k).
  assert (H : K (0 + Z.pos p) (SpecFloat.iter_pos shr_1 p mrs)).
  { apply iter_pos_invariant.
    - intros k x (Hk & Hx & E). destruct (shr_1_spec x Hx) as (Em & _).
      unfold K. rewrite Em, E. split; [lia|]. split; [apply Z.div_pos; [apply Z.div_pos|]; lia|].
      rewrite Z.pow_add_r by lia. change (2 ^ 1) with 2.
      rewrite Z.div_div by lia. reflexivity.
    - unfold K. split; [lia|]. split; [assumption|]. now rewrite Z.div_1_r. }
  destruct H as (_ & _ & E). exact E.
Qed.

(** A right shift by [n] places (none when [n <= 0]). *)
Lemma shr_spec v mrs e n :
  below v mrs e ->
  let '(mrs', e') := shr mrs e n in
  e' = e + Z.max n 0 /\ shr_m mrs' = shr_m mrs / 2 ^ Z.max n 0 /\ below v mrs' e'.
Proof.
  intros Hb. unfold shr. destruct n as [|p|p].
  - simpl. rewrite Z.add_0_r, Z.div_1_r. auto.
  - rewrite Z.max_l by lia. split; [reflexivity|].
    split; [apply shr_m_iter; apply Hb|].
    assert (H : below v (SpecFloat.iter_pos shr_1 p mrs) (e + (0 + Z.pos p))).
    { apply (iter_pos_invariant shr_1 (fun k x => below v x (e + k))).
      - intros k x Hx. rewrite Z.add_assoc. now apply below_shr_1.
      - now rewrite Z.add_0_r. }
    now rewrite Z.add_0_l in H.
  - rewrite Z.max_r by lia. simpl. rewrite Z.add_0_r, Z.div_1_r. auto.
Qed.

Lemma inexact_of_loc m l :
  inexact (shr_record_of_loc m l) = match l with loc_Exact => false | _ => true end.
Proof. destruct l as [|[]]; reflexivity. Qed.

Lemma shr_m_of_loc m l : shr_m (shr_record_of_loc m l) = m.
Proof. destruct l as [|[]]; reflexivity. Qed.

Lemma loc_exact_inexact mrs :
  loc_of_shr_record mrs = loc_Exact <-> inexact mrs = false.
Proof. destruct mrs as [m [] []]; simpl; unfold inexact; simpl; split; congruence. Qed.

(** Rounding to nearest adds at most one, and nothing to an exact value. *)
Lemma round_nearest_even_bounds m l :
  m <= round_nearest_even m l <= m + 1 /\
  (l = loc_Exact -> round_nearest_even m l = m).
Proof.
  destruct l as [|[]]; simpl; try (split; [lia | congruence]).
  destruct (Z.even m); split; try lia; congruence.
Qed.

(** ** The binary64 format *)

Lemma fexp_eq e : fexp prec emax e = Z.max (e - 53) (-1074).
Proof. reflexivity. Qed.

Lemma F2R_digits_lower m e :
  (bpow (Z.pos (digits2_pos m) - 1 + e) <= F2R (Z.pos m) e)%R.
Proof.
  rewrite bpow_add, bpow_IZR by lia. fold (F2R (2 ^ (Z.pos (digits2_pos m) - 1)) e).
  apply F2R_le, digits_lower.
Qed.

Lemma F2R_digits_upper m e :
  (F2R (Z.pos m) e < bpow (Z.pos (digits2_pos m) + e))%R.
Proof.
  rewrite bpow_add, bpow_IZR by lia. fold (F2R (2 ^ Z.pos (digits2_pos m)) e).
  apply F2R_lt, digits_upper.
Qed.

(** A finite binary64 number: canonical exponent, at most 53 digits. *)
Lemma bounded_facts m e :
  SpecFloat.bounded prec emax m e = true ->
  -1074 <= e <= 971 /\ Z.pos (digits2_pos m) <= 53 /\
  (-1074 < e -> Z.pos (digits2_pos m) = 53).
Proof.
  unfold SpecFloat.bounded, canonical_mantissa. rewrite fexp_eq.
  intros H. apply andb_true_iff in H as (Hc & He).
  apply Z.eqb_eq in Hc. apply Z.leb_le in He.
  change (emax - prec) with 971 in He. lia.
Qed.

Lemma bounded_below_overflow m e :
  SpecFloat.bounded prec emax m e = true -> (F2R (Z.pos m) e < bpow 1024)%R.
Proof.
  intros H. apply bounded_facts in H as (He & Hd & _).
  pose proof (F2R_digits_upper m e).
  pose proof (bpow_le (Z.pos (digits2_pos m) + e) 1024 ltac:(lia)). lra.
Qed.

(** ** The rounding step of every operation

    [binary_round_aux] on a positive mantissa that carries enough digits:
    when the exact value [v] lies at or below the finite number [B], so
    does the rounded result, which is a zero or a positive finite
    number. *)
Lemma round_aux_le (mx : positive) (ex : Z) (lx : location) (v : R)
    (mB : positive) (eB : Z) :
  ex <= fexp prec emax (Z.pos (digits2_pos mx) + ex) ->
  (F2R (Z.pos mx) ex <= v)%R ->
  (lx <> loc_Exact -> (F2R (Z.pos mx) ex < v)%R) ->
  SpecFloat.bounded prec emax mB eB = true ->
  (v <= F2R (Z.pos mB) eB)%R ->
  binary_round_aux prec emax false (Z.pos mx) ex lx = S754_zero false \/
  exists m e,
    binary_round_aux prec emax false (Z.pos mx) ex lx = S754_finite false m e /\
    (F2R (Z.pos m) e <= F2R (Z.pos mB) eB)%R.
Proof.
  intros Hprec Hle Hlt HB HvB.
  pose proof (bounded_facts _ _ HB) as (HeB & HdB & _).
  pose proof (bounded_below_overflow _ _ HB) as HBmax.
  set (d := Z.pos (digits2_pos mx)) in *.
  rewrite fexp_eq in Hprec.
  (* the value is at least 2^(d-1+ex) *)
  pose proof (F2R_digits_lower mx ex) as Hlow. fold d in Hlow.
  (* B is below 2^(eB+53) *)
  assert (HBup : (F2R (Z.pos mB) eB < bpow (eB + 53))%R).
  { pose proof (F2R_digits_upper mB eB).
    pose proof (bpow_le (Z.pos (digits2_pos mB) + eB) (eB + 53) ltac:(lia)). lra. }
  unfold binary_round_aux, shr_fexp.
  change (Zdigits2 (Z.pos mx)) with d. rewrite fexp_eq.
  set (e1 := Z.max (d + ex - 53) (-1074)) in *.
  assert (Hb0 : below v (shr_record_of_loc (Z.pos mx) lx) ex).
  { unfold below. rewrite shr_m_of_loc, inexact_of_loc.
    split; [lia|]. split; [assumption|].
    intros Hi. apply Hlt. intros ->. discriminate. }
  pose proof (shr_spec v _ ex (e1 - ex) Hb0) as Hs1.
  destruct (shr (shr_record_of_loc (Z.pos mx) lx) ex (e1 - ex)) as [mrs1 e1'].
  destruct Hs1 as (-> & Hm1 & Hm1pos & Hb1le & Hb1lt).
  replace (ex + Z.max (e1 - ex) 0) with e1 in * by lia.
  rewrite shr_m_of_loc in Hm1.
  set (m1 := shr_m mrs1) in *.
  destruct (round_nearest_even_bounds m1 (loc_of_shr_record mrs1)) as (Hm2 & Hm2e).
  set (m2 := round_nearest_even m1 (loc_of_shr_record mrs1)) in *.
  (* no overflow of the exponent *)
  assert (He1 : e1 <= 971).
  { destruct (Z_le_gt_dec e1 971) as [|Hgt]; [assumption|]. exfalso.
    assert (e1 = d + ex - 53) by lia.
    pose proof (bpow_le 1024 (d - 1 + ex) ltac:(lia)). lra. }
  (* the rounded mantissa stays at or below B *)
  assert (HA : (F2R m2 e1 <= F2R (Z.pos mB) eB)%R).
  { destruct (Z_le_gt_dec e1 eB) as [Hge|Hgt].
    - assert (EB : F2R (Z.pos mB) eB = F2R (Z.pos mB * 2 ^ (eB - e1)) e1)
        by (rewrite F2R_shift by lia; f_equal; lia).
      rewrite EB in *. apply F2R_le.
      assert (m1 <= Z.pos mB * 2 ^ (eB - e1)) by (apply (F2R_le_inv _ _ e1); lra).
      destruct (inexact mrs1) eqn:Ei.
      + assert (m1 < Z.pos mB * 2 ^ (eB - e1))
          by (apply (F2R_lt_inv _ _ e1); specialize (Hb1lt eq_refl); lra).
        lia.
      + rewrite Hm2e by (now apply loc_exact_inexact). assumption.
    - exfalso.
      assert (e1 = d + ex - 53) by lia.
      pose proof (bpow_le (eB + 53) (d - 1 + ex) ltac:(lia)). lra. }
  replace (e1 + Z.max (e1 - e1) 0) with e1 by lia.
  assert (Hb2 : below (F2R m2 e1) (shr_record_of_loc m2 loc_Exact) e1).
  { unfold below. simpl. split; [lia|]. split; [lra|]. discriminate. }
  pose proof (shr_spec _ _ e1 (fexp prec emax (Zdigits2 m2 + e1) - e1) Hb2) as Hs2.
  rewrite fexp_eq in *.
  destruct (shr (shr_record_of_loc m2 loc_Exact) e1
                (Z.max (Zdigits2 m2 + e1 - 53) (-1074) - e1)) as [mrs3 e3].
  destruct Hs2 as (He3 & Hm3 & Hm3pos & Hb3le & _).
  simpl shr_m in Hm3.
  destruct (shr_m mrs3) as [|m3|m3] eqn:Em3; [now left | | lia].
  right.
  assert (Hfin : e3 <= 971).
  { destruct (Z_le_gt_dec e3 971) as [|Hgt]; [assumption|]. exfalso.
    destruct m2 as [|p2|p2]; [rewrite Z.div_0_l in Hm3 by lia; lia | | lia].
    simpl Zdigits2 in *.
    pose proof (F2R_digits_lower p2 e1).
    pose proof (bpow_le 1024 (Z.pos (digits2_pos p2) - 1 + e1) ltac:(lia)). lra. }
  change (emax - prec) with 971.
  destruct (Z.leb_spec e3 971) as [_|]; [|lia].
  exists m3, e3. split; [reflexivity|]. lra.
Qed.

(** ** Rounding a number that is already a float *)

Lemma round_aux_canonical m e :
  SpecFloat.bounded prec emax m e = true ->
  binary_round_aux prec emax false (Z.pos m) e loc_Exact = S754_finite false m e.
Proof.
  intros HB. pose proof HB as HB'.
  unfold SpecFloat.bounded, canonical_mantissa in HB'.
  apply andb_true_iff in HB' as (Hc & He).
  apply Z.eqb_eq in Hc. 
  unfold binary_round_aux, shr_fexp.
  cbn [Zdigits2 shr_record_of_loc]. rewrite Hc, Z.sub_diag.
  cbn [shr shr_m loc_of_shr_record round_nearest_even Zdigits2 shr_record_of_loc].
  rewrite Hc, Z.sub_diag. cbn [shr shr_m]. now rewrite He.
Qed.

Lemma iter_xO_value p k : Z.pos (Pos.iter xO p k) = Z.pos p * 2 ^ Z.pos k.
Proof.
  apply (Pos.iter_ind _ xO p (fun k q => Z.pos q = Z.pos p * 2 ^ Z.pos k)).
  - rewrite Pos2Z.inj_xO. change (2 ^ 1) with 2. lia.
  - intros q a IH. rewrite Pos2Z.inj_xO, IH, Pos2Z.inj_succ, Z.pow_succ_r by lia. lia.
Qed.

Lemma iter_xO_digits p k :
  Z.pos (digits2_pos (Pos.iter xO p k)) = Z.pos (digits2_pos p) + Z.pos k.
Proof.
  apply (Pos.iter_ind _ xO p
           (fun k q => Z.pos (digits2_pos q) = Z.pos (digits2_pos p) + Z.pos k)).
  - simpl. lia.
  - intros q a IH. simpl digits2_pos. rewrite Pos2Z.inj_succ, IH. lia.
Qed.

(** [shl_align] lowers the exponent to [e'] when it is above, keeping the
    value. *)
Lemma shl_align_spec m e e' :
  let '(m', e'') := shl_align m e e' in
  e'' = Z.min e e' /\ Z.pos m' = Z.pos m * 2 ^ (e - e'') /\
  Z.pos (digits2_pos m') + e'' = Z.pos (digits2_pos m) + e.
Proof.
  unfold shl_align. destruct (e' - e) as [|d|d] eqn:E.
  - assert (e' = e) by lia. subst. rewrite Z.min_id, Z.sub_diag. simpl. lia.
  - rewrite Z.min_l by lia. rewrite Z.sub_diag. simpl. lia.
  - rewrite Z.min_r by lia. rewrite iter_xO_value, iter_xO_digits.
    replace (e - e') with (Z.pos d) by lia. lia.
Qed.

Lemma F2R_mul m1 e1 m2 e2 :
  F2R (m1 * m2) (e1 + e2) = (F2R m1 e1 * F2R m2 e2)%R.
Proof. unfold F2R. rewrite mult_IZR, bpow_add. ring. Qed.

Lemma F2R_plus m1 m2 e : F2R (m1 + m2) e = (F2R m1 e + F2R m2 e)%R.
Proof. unfold F2R. rewrite plus_IZR. ring. Qed.

Lemma F2R_pos m e : (0 < F2R (Z.pos m) e)%R.
Proof.
  unfold F2R. pose proof (bpow_pos e).
  assert (0 < IZR (Z.pos m))%R by (apply IZR_lt; lia). nra.
Qed.

(** ** [float(n)] is exact below [2^53] *)

Lemma binary_round_small p :
  Z.pos p < 2 ^ 53 ->
  exists m e,
    binary_round prec emax false p 0 = S754_finite false m e /\
    F2R (Z.pos m) e = IZR (Z.pos p) /\
    Z.pos (digits2_pos m) = 53 /\ -52 <= e <= 0.
Proof.
  intros Hp. unfold binary_round.
  pose proof (digits_le_of_lt p 53 Hp) as Hd.
  pose proof (shl_align_spec p 0 (fexp prec emax (Z.pos (digits2_pos p) + 0))) as Hs.
  destruct (shl_align p 0 (fexp prec emax (Z.pos (digits2_pos p) + 0))) as [mz ez].
  rewrite fexp_eq in Hs. destruct Hs as (Hez & Hmz & Hdz).
  assert (ez = Z.pos (digits2_pos p) - 53) by lia.
  assert (HB : SpecFloat.bounded prec emax mz ez = true).
  { unfold SpecFloat.bounded, canonical_mantissa. rewrite fexp_eq.
    apply andb_true_iff. split; [apply Z.eqb_eq | apply Z.leb_le]; 
      change (emax - prec) with 971; lia. }
  rewrite (round_aux_canonical _ _ HB).
  exists mz, ez. split; [reflexivity|]. split; [|lia].
  rewrite Hmz, F2R_shift by lia.
  replace (ez + (0 - ez)) with 0 by lia.
  unfold F2R. rewrite bpow_0. ring.
Qed.

Lemma to_Z_of_Z_small n : 0 <= n < 2 ^ 53 -> Uint63.to_Z (Uint63.of_Z n) = n.
Proof.
  intros Hn. rewrite Uint63.of_Z_spec. apply Z.mod_small.
  change wB with (2 ^ 63). assert (2 ^ 53 < 2 ^ 63) by reflexivity. lia.
Qed.

Lemma float_of_int_zero : Prim2SF (float_of_int 0) = S754_zero false.
Proof. reflexivity. Qed.

Lemma float_of_int_pos n :
  0 < n < 2 ^ 53 ->
  exists m e,
    Prim2SF (float_of_int n) = S754_finite false m e /\
    F2R (Z.pos m) e = IZR n /\ Z.pos (digits2_pos m) = 53 /\ -52 <= e <= 0.
Proof.
  intros Hn. unfold float_of_int.
  rewrite of_uint63_spec, to_Z_of_Z_small by lia.
  destruct n as [|p|p]; try lia. simpl binary_normalize.
  apply binary_round_small. lia.
Qed.

(** ** Division of two 53-digit mantissas *)

Lemma div_core_spec m1 e1 m2 e2 :
  Z.pos (digits2_pos m1) = 53 -> Z.pos (digits2_pos m2) = 53 ->
  -1074 <= e1 - e2 - 53 ->
  SFdiv_core_binary prec emax (Z.pos m1) e1 (Z.pos m2) e2
  = (Z.pos m1 * 2 ^ 53 / Z.pos m2, e1 - e2 - 53,
     new_location (Z.pos m2) ((Z.pos m1 * 2 ^ 53) mod Z.pos m2)).
Proof.
  intros H1 H2 He. unfold SFdiv_core_binary. cbn [Zdigits2].
  rewrite H1, H2, fexp_eq.
  replace (Z.min (Z.max (53 + e1 - (53 + e2) - 53) (-1074)) (e1 - e2))
    with (e1 - e2 - 53) by lia.
  replace (e1 - e2 - (e1 - e2 - 53)) with 53 by lia.
  cbv iota. rewrite Z.shiftl_mul_pow2 by lia.
  unfold Z.div, Z.modulo.
  destruct (Z.div_eucl (Z.pos m1 * 2 ^ 53) (Z.pos m2)). reflexivity.
Qed.

Lemma new_location_inexact n k :
  new_location n k <> loc_Exact -> k <> 0.
Proof.
  unfold new_location, new_location_even, new_location_odd.
  intros H ->. destruct (Z.even n); simpl in H; congruence.
Qed.

(** [a / b] on ints below [2^53]: the quotient float stays at or below any
    finite float that is at or above the exact quotient. *)
Lemma div_int_le a b mB eB :
  0 <= a < 2 ^ 53 -> 0 < b < 2 ^ 53 ->
  SpecFloat.bounded prec emax mB eB = true ->
  (IZR a <= F2R (Z.pos mB) eB * IZR b)%R ->
  nonneg_le (float_of_int a / float_of_int b) (F2R (Z.pos mB) eB).
Proof.
  intros Ha Hb HB Hq.
  split; [pose proof (F2R_pos mB eB); lra|].
  rewrite FloatAxioms.div_spec.
  destruct (float_of_int_pos b Hb) as (m2 & e2 & E2 & V2 & D2 & R2).
  rewrite E2.
  destruct (Z.eq_dec a 0) as [-> | Hnz].
  { left. rewrite float_of_int_zero. reflexivity. }
  destruct (float_of_int_pos a ltac:(lia)) as (m1 & e1 & E1 & V1 & D1 & R1).
  rewrite E1. unfold SF64div, SFdiv.
  rewrite div_core_spec by (assumption || lia).
  cbn [xorb].
  pose proof (Z.div_mod (Z.pos m1 * 2 ^ 53) (Z.pos m2) ltac:(lia)) as Hdm.
  pose proof (Z.mod_pos_bound (Z.pos m1 * 2 ^ 53) (Z.pos m2) ltac:(lia)) as Hr.
  set (q := Z.pos m1 * 2 ^ 53 / Z.pos m2) in *.
  set (r := (Z.pos m1 * 2 ^ 53) mod Z.pos m2) in *.
  pose proof (digits_lower m1) as L1. rewrite D1 in L1.
  pose proof (digits_upper m2) as U2. rewrite D2 in U2.
  assert (Hq52 : 2 ^ 52 <= q).
  { assert (2 ^ 52 * 2 ^ 53 <= Z.pos m1 * 2 ^ 53) by (apply Z.mul_le_mono_nonneg_r; lia).
    assert (2 ^ 52 * 2 ^ 53 < (q + 1) * Z.pos m2) by lia.
    assert (Hlt : (q + 1) * Z.pos m2 < (q + 1) * 2 ^ 53 \/ q + 1 <= 0) by nia.
    destruct Hlt; [|nia]. nia. }
  destruct q as [|qp|qp] eqn:Eq; try lia.
  set (v := (IZR a / IZR b)%R).
  assert (Hbpos : (0 < IZR b)%R) by (apply IZR_lt; lia).
  (* the exact quotient, as a scaled integer fraction *)
  assert (Hv : (v * IZR (Z.pos m2) = IZR (Z.pos m1 * 2 ^ 53) * bpow (e1 - e2 - 53))%R).
  { unfold v. rewrite <- V1, <- V2. unfold F2R.
    rewrite mult_IZR, <- (bpow_IZR 53) by lia.
    replace (bpow (e1 - e2 - 53)) with (bpow e1 * / bpow e2 * / bpow 53)%R.
    - pose proof (bpow_pos e2). pose proof (bpow_pos 53).
      assert (0 < IZR (Z.pos m2))%R by (apply IZR_lt; lia).
      field. split; lra.
    - replace e1 with ((e1 - e2 - 53) + e2 + 53) at 1 by lia.
      rewrite !bpow_add. pose proof (bpow_pos e2). pose proof (bpow_pos 53).
      field. split; lra. }
  assert (Hm2pos : (0 < IZR (Z.pos m2))%R) by (apply IZR_lt; lia).
  assert (Hle : (F2R (Z.pos qp) (e1 - e2 - 53) <= v)%R).
  { apply Rmult_le_reg_r with (r := IZR (Z.pos m2)); [assumption|].
    rewrite Hv. unfold F2R. pose proof (bpow_pos (e1 - e2 - 53)).
    assert (IZR (Z.pos qp) * IZR (Z.pos m2) <= IZR (Z.pos m1 * 2 ^ 53))%R.
    { rewrite <- mult_IZR. apply IZR_le. lia. }
    nra. }
  assert (Hlt : new_location (Z.pos m2) r <> loc_Exact ->
                (F2R (Z.pos qp) (e1 - e2 - 53) < v)%R).
  { intros Hl. apply new_location_inexact in Hl.
    apply Rmult_lt_reg_r with (r := IZR (Z.pos m2)); [assumption|].
    rewrite Hv. unfold F2R. pose proof (bpow_pos (e1 - e2 - 53)).
    assert (IZR (Z.pos qp) * IZR (Z.pos m2) < IZR (Z.pos m1 * 2 ^ 53))%R.
    { rewrite <- mult_IZR. apply IZR_lt. lia. }
    nra. }
  assert (HvB : (v <= F2R (Z.pos mB) eB)%R).
  { unfold v. apply Rmult_le_reg_r with (r := IZR b); [assumption|].
    replace (IZR a / IZR b * IZR b)%R with (IZR a) by (field; lra). lra. }
  apply (round_aux_le qp (e1 - e2 - 53) _ v mB eB); try assumption.
  rewrite fexp_eq. pose proof (digits_ge_of_le qp 52 Hq52). lia.
Qed.

(** ** Multiplication by a constant with a full mantissa *)

Lemma mul_const_le x c a mc ec mB eB :
  nonneg_le x a ->
  Prim2SF c = S754_finite false mc ec -> Z.pos (digits2_pos mc) = 53 ->
  SpecFloat.bounded prec emax mB eB = true ->
  (a * F2R (Z.pos mc) ec <= F2R (Z.pos mB) eB)%R ->
  nonneg_le (x * c) (F2R (Z.pos mB) eB).
Proof.
  intros (Ha & Hx) Hc Hd HB Hle.
  split; [pose proof (F2R_pos mB eB); lra|].
  rewrite FloatAxioms.mul_spec, Hc.
  destruct Hx as [-> | (mx & ex & -> & Hv)]; [now left|].
  unfold SF64mul, SFmul. cbn [xorb].
  change (Z.pos (mx * mc)) with (Z.pos mx * Z.pos mc).
  pose proof (F2R_pos mx ex). pose proof (F2R_pos mc ec).
  apply (round_aux_le (mx * mc) (ex + ec) loc_Exact
           (F2R (Z.pos mx) ex * F2R (Z.pos mc) ec) mB eB).
  - rewrite fexp_eq.
    assert (2 ^ 52 <= Z.pos (mx * mc)).
    { pose proof (digits_lower mc) as L. rewrite Hd in L.
      rewrite Pos2Z.inj_mul. nia. }
    pose proof (digits_ge_of_le (mx * mc) 52 ltac:(assumption)). lia.
  - rewrite Pos2Z.inj_mul, F2R_mul. lra.
  - congruence.
  - assumption.
  - nra.
Qed.

(** ** Addition of two non-negative numbers *)

Lemma add_le x y a b mB eB :
  nonneg_le x a -> nonneg_le y b ->
  SpecFloat.bounded prec emax mB eB = true ->
  (a + b <= F2R (Z.pos mB) eB)%R ->
  nonneg_le (x + y) (F2R (Z.pos mB) eB).
Proof.
  intros (Ha & Hx) (Hb & Hy) HB Hle.
  split; [pose proof (F2R_pos mB eB); lra|].
  rewrite FloatAxioms.add_spec.
  destruct Hx as [-> | (mx & ex & -> & Hvx)];
    destruct Hy as [-> | (my & ey & -> & Hvy)].
  - now left.
  - right. exists my, ey. split; [reflexivity | lra].
  - right. exists mx, ex. split; [reflexivity | lra].
  - unfold SF64add, SFadd. cbn [cond_Zopp].
    pose proof (shl_align_spec mx ex (Z.min ex ey)) as Sx.
    pose proof (shl_align_spec my ey (Z.min ex ey)) as Sy.
    destruct (shl_align mx ex (Z.min ex ey)) as [mx' ex'].
    destruct (shl_align my ey (Z.min ex ey)) as [my' ey'].
    cbn [fst]. destruct Sx as (Ex & Mx & _). destruct Sy as (Ey & My & _).
    change (Z.pos mx' + Z.pos my') with (Z.pos (mx' + my')).
    cbn [binary_normalize]. unfold binary_round.
    set (ez := Z.min ex ey) in *.
    pose proof (shl_align_spec (mx' + my') ez
                  (fexp prec emax (Z.pos (digits2_pos (mx' + my')) + ez))) as Sz.
    destruct (shl_align (mx' + my') ez
                (fexp prec emax (Z.pos (digits2_pos (mx' + my')) + ez))) as [mz ez'].
    destruct Sz as (Ez & Mz & Dz).
    assert (Vx : F2R (Z.pos mx') ez = F2R (Z.pos mx) ex).
    { rewrite Mx, F2R_shift by lia. f_equal. lia. }
    assert (Vy : F2R (Z.pos my') ez = F2R (Z.pos my) ey).
    { rewrite My, F2R_shift by lia. f_equal. lia. }
    assert (Vz : F2R (Z.pos mz) ez' = (F2R (Z.pos mx) ex + F2R (Z.pos my) ey)%R).
    { rewrite Mz, F2R_shift by lia.
      replace (ez' + (ez - ez')) with ez by lia.
      rewrite Pos2Z.inj_add, F2R_plus. lra. }
    apply (round_aux_le mz ez' loc_Exact
             (F2R (Z.pos mx) ex + F2R (Z.pos my) ey) mB eB).
    + rewrite Dz. lia.
    + lra.
    + congruence.
    + assumption.
    + lra.
Qed.

(** ** Comparison *)

Lemma SFcompare_antisym x y :
  SFcompare y x = option_map CompOpp (SFcompare x y).
Proof.
  destruct x as [sx|sx| |sx mx ex], y as [sy|sy| |sy my ey]; simpl;
    try reflexivity;
    try (destruct sx; reflexivity); try (destruct sy; reflexivity);
    try (destruct sx, sy; reflexivity).
  destruct sx, sy; try reflexivity; simpl;
    rewrite (Z.compare_antisym ex ey);
    destruct (ex ?= ey); simpl; try reflexivity;
    change (Pos.compare_cont Eq my mx) with (Pos.compare_cont (CompOpp Eq) my mx);
    rewrite <- (Pos.compare_cont_antisym mx my Eq);
    now destruct (Pos.compare_cont Eq mx my).
Qed.

Lemma SFcompare_some x y :
  x <> S754_nan -> y <> S754_nan -> exists c, SFcompare x y = Some c.
Proof.
  destruct x as [sx|sx| |sx mx ex], y as [sy|sy| |sy my ey]; simpl;
    intros Hx Hy; try congruence; eauto.
Qed.

(** On numbers, [y < x] is the negation of [x <= y]. *)
Lemma ltb_negb_leb x y :
  not_nan x -> not_nan y -> (y <? x)%float = negb (x <=? y)%float.
Proof.
  intros Hx Hy. rewrite FloatAxioms.ltb_spec, FloatAxioms.leb_spec. unfold SFltb, SFleb.
  rewrite (SFcompare_antisym (Prim2SF x) (Prim2SF y)).
  destruct (SFcompare_some _ _ Hx Hy) as (c & ->). now destruct c.
Qed.

Lemma ltb_leb x y : (x <? y)%float = true -> (x <=? y)%float = true.
Proof.
  rewrite FloatAxioms.ltb_spec, FloatAxioms.leb_spec. unfold SFltb, SFleb.
  destruct (SFcompare (Prim2SF x) (Prim2SF y)) as [[]|]; congruence.
Qed.

Lemma nonneg_le_not_nan x a : nonneg_le x a -> not_nan x.
Proof. intros (_ & [H | (m & e & H & _)]); unfold not_nan; rewrite H; discriminate. Qed.

Lemma nonneg_le_leb_zero x a : nonneg_le x a -> (0 <=? x)%float = true.
Proof.
  intros (_ & [H | (m & e & H & _)]); rewrite FloatAxioms.leb_spec, H; reflexivity.
Qed.

(** A number of value at most that of the finite float [B] is [<= B]. *)
Lemma nonneg_le_leb x B mB eB :
  Prim2SF B = S754_finite false mB eB ->
  nonneg_le x (F2R (Z.pos mB) eB) -> (x <=? B)%float = true.
Proof.
  intros HB (_ & Hx). rewrite FloatAxioms.leb_spec, HB.
  destruct Hx as [-> | (m & e & Hx & Hv)]; [reflexivity|].
  pose proof (Prim2SF_valid x) as Vx. rewrite Hx in Vx.
  pose proof (Prim2SF_valid B) as VB. rewrite HB in VB.
  rewrite Hx. unfold SFleb. simpl.
  apply bounded_facts in Vx as (Vx1 & Vx2 & Vx3).
  apply bounded_facts in VB as (VB1 & VB2 & VB3).
  destruct (Z.compare_spec e eB) as [-> | Hlt | Hgt].
  - apply F2R_le_inv in Hv.
    rewrite Pos.compare_cont_spec. simpl.
    destruct (Pos.compare_spec m mB); try reflexivity. lia.
  - reflexivity.
  - exfalso.
    pose proof (F2R_digits_lower m e) as L. rewrite Vx3 in L by lia.
    pose proof (F2R_digits_upper mB eB) as U.
    pose proof (bpow_le (Z.pos (digits2_pos mB) + eB) (53 - 1 + e) ltac:(lia)).
    lra.
Qed.

(** ** The constants of the handler *)

Lemma F2R_int n k : 0 <= k -> F2R (n * 2 ^ k) (- k) = IZR n.
Proof.
  intros Hk. rewrite F2R_shift by assumption.
  replace (- k + k) with 0 by lia. unfold F2R. rewrite bpow_0. ring.
Qed.

Lemma F2R_one : F2R 4503599627370496 (-52) = 1%R.
Proof. exact (F2R_int 1 52 ltac:(lia)). Qed.

Lemma F2R_hundred : F2R 7036874417766400 (-46) = 100%R.
Proof. exact (F2R_int 100 46 ltac:(lia)). Qed.

Lemma F2R_fifty : F2R 7036874417766400 (-47) = 50%R.
Proof. exact (F2R_int 50 47 ltac:(lia)). Qed.

Lemma F2R_half_const : F2R 4503599627370496 (-53) = (/ 2)%R.
Proof.
  change 4503599627370496 with (1 * 2 ^ 52). rewrite F2R_shift by lia.
  change (-53 + 52) with (-1). unfold F2R, bpow. simpl. lra.
Qed.

(** ** Bounds of the risk score *)

(** One half of the score: [count / total * 100 * 0.5] lies in [0, 50]. *)
Lemma half_score_le count total :
  0 <= count <= total -> 0 < total < 2 ^ 53 ->
  nonneg_le (float_of_int count / float_of_int total * 100 * 0.5)%float 50%R.
Proof.
  intros Hc Ht.
  rewrite <- F2R_fifty.
  apply (mul_const_le _ 0.5%float 100%R 4503599627370496 (-53));
    [ | reflexivity | reflexivity | reflexivity | rewrite F2R_half_const, F2R_fifty; lra].
  rewrite <- F2R_hundred.
  apply (mul_const_le _ 100%float 1%R 7036874417766400 (-46));
    [ | reflexivity | reflexivity | reflexivity | rewrite F2R_hundred; lra].
  rewrite <- F2R_one.
  apply div_int_le; [lia | lia | reflexivity |].
  rewrite F2R_one. assert (IZR count <= IZR total)%R by (apply IZR_le; lia). lra.
Qed.

(** The unrounded score lies in [0, 100]. *)
Lemma score_of_le s :
  0 <= pending s <= total s -> 0 <= conflicts s <= total s ->
  0 < total s < 2 ^ 53 ->
  nonneg_le (score_of s) 100%R.
Proof.
  intros Hp Hc Ht. unfold score_of. rewrite <- F2R_hundred.
  apply (add_le _ _ 50%R 50%R); 
    [now apply half_score_le | now apply half_score_le | reflexivity |].
  rewrite F2R_hundred. lra.
Qed.

(** ** [round(x, 2)] on a score *)

Lemma div_half_even_le a b K :
  0 <= a -> 0 < b -> a <= K * b -> 0 <= div_half_even a b <= K.
Proof.
  intros Ha Hb HK. unfold div_half_even.
  pose proof (Z.div_mod a b ltac:(lia)) as Hdm.
  pose proof (Z.mod_pos_bound a b Hb) as Hr.
  assert (0 <= a / b) by (apply Z.div_pos; lia).
  assert (a / b <= K).
  { destruct (Z_le_gt_dec (a / b) K); [assumption|]. exfalso. nia. }
  destruct (Z.compare_spec (2 * (a mod b)) b) as [E | L | G].
  - destruct (Z.even (a / b)); [lia|].
    assert (a / b <> K) by (intros EK; rewrite EK in *; nia). lia.
  - lia.
  - assert (a / b <> K) by (intros EK; rewrite EK in *; nia). lia.
Qed.

Lemma scaled_half_even_le m e :
  (F2R (Z.pos m) e <= 100)%R -> 0 <= scaled_half_even 2 m e <= 10000.
Proof.
  intros Hv. unfold scaled_half_even. change (10 ^ 2) with 100.
  destruct (Z.leb_spec 0 e) as [He | He].
  - assert (Z.pos m * 2 ^ e <= 100).
    { apply (F2R_le_inv _ _ 0). rewrite F2R_shift by lia. simpl.
      unfold F2R at 2. rewrite bpow_0. lra. }
    pose proof (Z.pow_pos_nonneg 2 e ltac:(lia) He). nia.
  - assert (Z.pos m <= 100 * 2 ^ (- e)).
    { apply (F2R_le_inv _ _ e). rewrite F2R_shift by lia.
      replace (e + - e) with 0 by lia. unfold F2R at 2. rewrite bpow_0. lra. }
    pose proof (Z.pow_pos_nonneg 2 (- e) ltac:(lia) ltac:(lia)).
    apply div_half_even_le; lia.
Qed.

(** The score rounded to two places is the float nearest to [n / 100] for
    an integer [0 <= n <= 10000], and lies in [0, 100]. *)
Lemma py_round_score x :
  nonneg_le x 100%R ->
  nonneg_le (py_round_float 2 x) 100%R /\
  exists n, 0 <= n <= 10000 /\
            py_round_float 2 x = (float_of_int n / float_of_int 100)%float.
Proof.
  intros Hx. pose proof Hx as (_ & [H0 | (m & e & Hf & Hv)]).
  - unfold py_round_float. rewrite H0. split; [assumption|].
    exists 0. split; [lia|].
    apply Prim2SF_inj. now rewrite H0.
  - unfold py_round_float. rewrite Hf.
    pose proof (scaled_half_even_le m e Hv) as Hn.
    destruct (Z.ltb_spec (scaled_half_even 2 m e) (2 ^ 53)) as [_|Hbig];
      [|assert (10000 < 2 ^ 53) by reflexivity; lia].
    change (10 ^ 2) with 100. split.
    + rewrite <- F2R_hundred.
      apply div_int_le; [ | split; reflexivity | reflexivity | ].
      * assert (10000 < 2 ^ 53) by reflexivity. lia.
      * rewrite F2R_hundred. 
        assert (IZR (scaled_half_even 2 m e) <= IZR 10000)%R by (apply IZR_le; lia).
        lra.
    + eauto.
Qed.

(* ===================================================================== *)
(** ** Sample runs *)

(** A [district] that is a list cannot key the aggregates: the handler
    answers with the error payload of the [TypeError]. *)
Example unhashable_district_run :
  get_analytics (Ok (collection [feature [("district", JList [])]]))
  = AnalyticsError "unhashable type: 'list'".
Proof. reflexivity. Qed.

(** So does a record whose [properties] is [null]. *)
Example null_properties_run :
  get_analytics (Ok (collection [JDict [("properties", JNull)]]))
  = AnalyticsError "'NoneType' object has no attribute 'get'".
Proof. reflexivity. Qed.

(** An unreadable store surfaces with the message of its exception. *)
Example store_failure_run :
  get_analytics (Raise (IOFailure "[Errno 2] No such file or directory"))
  = AnalyticsError "[Errno 2] No such file or directory".
Proof. reflexivity. Qed.

(** Binary64 at a band edge: 1 pending and 27 conflicts out of 35 make
    40 in exact arithmetic, but the floats add up to one unit in the last
    place above 40, so the level is Moderate while the rounded
    [risk_score] reads 40.0. *)
Example band_edge_run :
  rank_of (JStr "A", mkStats 35 1 27 7)
  = mkRanking (JStr "A") 35 1 27 40 "Moderate" /\
  score_of (mkStats 35 1 27 7) = 0x1.4000000000001p+5%float.
Proof. split; vm_compute; reflexivity. Qed.

(* ===================================================================== *)
(** ** C1: the three-record example *)

Lemma three_records_run :
  get_analytics (Ok three_records)
  = Analytics (mkSummary 3 1 1 1 (PyFloat 33.3) (PyFloat 33.3))
      [ mkRanking (JStr "A") 2 1 1 50 "Moderate";
        mkRanking (JStr "B") 1 0 1 50 "Moderate" ].
Proof. vm_compute. reflexivity. Qed.

(** C1, as claimed, fails: on the three-record example the entry of
    district A has [risk_score] 50.0 and level Moderate, so no entry of A
    has [risk_score] 25.0 and level Low. *)
Lemma C1_claimed_outcome_fails :
  ~ exists st,
      tally_features (JList three_features) = Ok st /\
      example_outcome_claimed (districts_data st) (get_analytics (Ok three_records)).
Proof.
  intros (st & _ & _ & _ & s & ds & rA & rB & E & HA & HdA & _ & _ & _ & _ & HlA & _).
  rewrite three_records_run in E. injection E as <- <-.
  destruct HA as [<- | [<- | []]]; simpl in *; discriminate.
Qed.

(** C1, amended: the three-record example yields the aggregates A
    (total 2, pending 1, approved 1, conflicts 1) and B (total 1, pending 0,
    approved 0, conflicts 1), the summary 3 / 1 / 1 / 1, and two ranking
    entries that both have [risk_score] 50.0 and level Moderate. *)
Theorem C1_three_records :
  tally_features (JList three_features)
  = Ok (mkTally 1 1 1 [ (JStr "A", mkStats 2 1 1 1); (JStr "B", mkStats 1 0 1 0) ]) /\
  get_analytics (Ok three_records)
  = Analytics (mkSummary 3 1 1 1 (PyFloat 33.3) (PyFloat 33.3))
      [ mkRanking (JStr "A") 2 1 1 50 "Moderate";
        mkRanking (JStr "B") 1 0 1 50 "Moderate" ].
Proof. split; [vm_compute; reflexivity | exact three_records_run]. Qed.

(* ===================================================================== *)
(** ** C2: a flagged Approved or Pending record *)

Lemma dd_stats_after d status overlap protected dd dd' :
  hashable d = true ->
  district_counts d status overlap protected dd = Ok dd' ->
  dd_stats d dd' = bump status overlap protected (dd_stats d dd).
Proof.
  intros Hd H.
  destruct (district_counts_get d status overlap protected dd Hd) as (dd2 & E & G).
  rewrite E in H; injection H as <-.
  unfold dd_stats at 1. now rewrite G.
Qed.

(** C2: a record with status Approved or Pending that carries [overlap] or
    [protected_zone] leaves the global [conflict_claims] unchanged, while
    its district's [conflicts] grows by one together with the district's
    and the global approved or pending counter. *)
Theorem C2_flagged_status_record (st : tally) (feature : json) :
  valid_record feature = true ->
  f_status feature = JStr "Approved" \/ f_status feature = JStr "Pending" ->
  flagged feature = true ->
  exists st', tally_step st feature = Ok st' /\
    conflict_claims st' = conflict_claims st /\
    let old := dd_stats (f_district feature) (districts_data st) in
    let new := dd_stats (f_district feature) (districts_data st') in
    conflicts new = conflicts old + 1 /\
    total new = total old + 1 /\
    (f_status feature = JStr "Approved" ->
       approved_claims st' = approved_claims st + 1 /\
       pending_claims st' = pending_claims st /\
       approved new = approved old + 1 /\ pending new = pending old) /\
    (f_status feature = JStr "Pending" ->
       pending_claims st' = pending_claims st + 1 /\
       approved_claims st' = approved_claims st /\
       pending new = pending old + 1 /\ approved new = approved old).
Proof.
  intros Hv Hs Hf.
  destruct (tally_step_valid st feature Hv) as (Hd & dd' & Hdd & E).
  eexists; split; [exact E|].
  cbn [districts_data conflict_claims approved_claims pending_claims].
  rewrite (dd_stats_after _ _ _ _ _ _ Hd Hdd).
  unfold flagged in Hf. unfold global_counts, bump. rewrite Hf.
  destruct Hs as [-> | ->]; simpl; repeat split; try reflexivity;
    intros; discriminate.
Qed.

(** C2 on a pending record of district A inside a protected zone, as the
    first record of a run. *)
Lemma C2_flagged_status_record_witness :
  exists st', tally_step tally_init pending_flagged = Ok st' /\
    conflict_claims st' = 0 /\
    conflicts (dd_stats (JStr "A") (districts_data st')) = 1 /\
    pending (dd_stats (JStr "A") (districts_data st')) = 1.
Proof.
  destruct (C2_flagged_status_record tally_init pending_flagged
              eq_refl (or_intror eq_refl) eq_refl)
    as (st' & E & Hc & Hdc & _ & _ & Hp).
  exists st'. split; [exact E|]. split; [exact Hc|]. split; [exact Hdc|].
  exact (proj1 (proj2 (proj2 (Hp eq_refl)))).
Defined.

(* ===================================================================== *)
(** ** C3: the risk score and its level *)

(** A score at or below 40 is at or below 70. *)
Lemma leb_40_70 x a :
  nonneg_le x a -> (x <=? 40)%float = true -> (x <=? 70)%float = true.
Proof.
  intros (_ & Hx). rewrite !FloatAxioms.leb_spec.
  change (Prim2SF 40) with (S754_finite false 5629499534213120 (-47)).
  change (Prim2SF 70) with (S754_finite false 4925812092436480 (-46)).
  destruct Hx as [-> | (m & e & -> & _)]; [reflexivity|].
  unfold SFleb, SFcompare.
  destruct (Z.compare_spec e (-47)) as [-> | Hlt | Hgt].
  - reflexivity.
  - intros _. destruct (Z.compare_spec e (-46)); try reflexivity; lia.
  - discriminate.
Qed.

(** The three bands of [classify] on a number in [0, 100]. *)
Lemma classify_bands x a :
  nonneg_le x a ->
  (classify x = "Low" <-> (x <=? 40)%float = true) /\
  (classify x = "Moderate" <-> (40 <? x)%float = true /\ (x <=? 70)%float = true) /\
  (classify x = "High" <-> (70 <? x)%float = true).
Proof.
  intros Hx. pose proof (nonneg_le_not_nan _ _ Hx) as Hn.
  assert (H40 : not_nan 40) by (unfold not_nan; discriminate).
  assert (H70 : not_nan 70) by (unfold not_nan; discriminate).
  rewrite (ltb_negb_leb x 40 Hn H40), (ltb_negb_leb x 70 Hn H70).
  pose proof (leb_40_70 x a Hx) as Hmono.
  unfold classify.
  destruct (x <=? 40)%float; [rewrite Hmono by reflexivity|];
    [|destruct (x <=? 70)%float]; simpl;
    repeat split; intros; try discriminate; try reflexivity;
    try (destruct H; discriminate); auto.
Qed.

(** C3: for a document of fewer than [2^53] records, every returned
    ranking entry comes from an aggregate with [total > 0] whose score is
    [(pending/total*100)*0.5 + (conflicts/total*100)*0.5] in binary64.  The
    score lies in [0, 100]; the entry's [risk_score] is the score rounded to
    two decimal places (the float nearest to [n/100] for an integer
    [0 <= n <= 10000]) and lies in [0, 100] too; and the level is Low iff
    [score <= 40], Moderate iff [40 < score <= 70], High iff [score > 70],
    on the score before rounding. *)
Theorem C3_risk_score (data : json) (s : summary) (ds : list ranking)
    (r : ranking) :
  compute data = Ok (s, ds) ->
  Z.of_nat (List.length (records data)) < 2 ^ 53 ->
  In r ds ->
  exists (st : tally) (agg : stats) (score : float),
    for_each tally_step (records data) tally_init = Ok st /\
    In (district r, agg) (districts_data st) /\
    0 < total agg /\ total_claims r = total agg /\
    r_pending r = pending agg /\ r_conflicts r = conflicts agg /\
    raw_risk_score agg = Ok score /\
    score = (float_of_int (pending agg) / float_of_int (total agg) * 100 * 0.5
             + float_of_int (conflicts agg) / float_of_int (total agg) * 100 * 0.5)%float /\
    (0 <=? score)%float = true /\ (score <=? 100)%float = true /\
    risk_score r = py_round_float 2 score /\
    two_decimals (risk_score r) /\
    (0 <=? risk_score r)%float = true /\ (risk_score r <=? 100)%float = true /\
    (risk_level r = "Low" <-> (score <=? 40)%float = true) /\
    (risk_level r = "Moderate" <->
       (40 <? score)%float = true /\ (score <=? 70)%float = true) /\
    (risk_level r = "High" <-> (70 <? score)%float = true).
Proof.
  intros E Hsize Hin.
  apply compute_ok in E as (features & st & Hf & Hst & HI & _ & ->).
  rewrite (records_features _ _ Hf) in *.
  apply In_sort_desc, In_rank_of in Hin as (name & agg & Hagg & ->).
  destruct HI as (Hsum & Hok & _).
  pose proof (total_le_sum _ _ _ Hok Hagg) as Hle.
  rewrite Forall_forall in Hok. specialize (Hok _ Hagg).
  unfold stats_ok in Hok. simpl in Hok.
  assert (Hscore : nonneg_le (score_of agg) 100%R) by (apply score_of_le; lia).
  destruct (py_round_score _ Hscore) as (Hround & n & Hn & En).
  exists st, agg, (score_of agg). simpl.
  split; [exact Hst|]. split; [exact Hagg|].
  split; [lia|]. do 3 (split; [reflexivity|]).
  split; [apply raw_risk_score_nonzero; lia|].
  split; [reflexivity|].
  split; [eapply nonneg_le_leb_zero; eauto|].
  split; [apply (nonneg_le_leb _ 100%float 7036874417766400 (-46));
          [reflexivity | now rewrite F2R_hundred]|].
  split; [reflexivity|].
  split; [exists n; split; assumption|].
  split; [eapply nonneg_le_leb_zero; eauto|].
  split; [apply (nonneg_le_leb _ 100%float 7036874417766400 (-46));
          [reflexivity | now rewrite F2R_hundred]|].
  exact (classify_bands _ _ Hscore).
Qed.

(** C3 on the entry of district A of the three-record example. *)
Lemma C3_risk_score_witness :
  exists agg score,
    0 < total agg /\ raw_risk_score agg = Ok score /\
    (score <=? 100)%float = true /\
    two_decimals (risk_score (mkRanking (JStr "A") 2 1 1 50 "Moderate")).
Proof.
  destruct (C3_risk_score three_records _ _
              (mkRanking (JStr "A") 2 1 1 50 "Moderate")
              eq_refl eq_refl (or_introl eq_refl))
    as (st & agg & score & _ & _ & Ht & _ & _ & _ & Hr & _ & _ & Hle & _ & H2 & _).
  exists agg, score. repeat split; assumption.
Defined.

(* ===================================================================== *)
(** ** C4: the district totals add up to [total_claims] *)

Lemma compute_sum_totals data s ds :
  compute data = Ok (s, ds) -> sum_totals ds = s_total_claims s.
Proof.
  intros H. apply compute_ok in H as (features & st & _ & _ & HI & -> & ->).
  destruct HI as (Hsum & _). simpl.
  now rewrite sum_totals_sort_desc, sum_totals_rank_of.
Qed.

(** C4: on a well-formed document [compute] returns, the totals of the
    returned districts add up to the summary's [total_claims], which is the
    number of records, and every aggregate has its ranking entry. *)
Theorem C4_district_totals_sum (data : json) :
  valid_collection data = true ->
  exists s ds,
    compute data = Ok (s, ds) /\
    sum_totals ds = s_total_claims s /\
    s_total_claims s = Z.of_nat (List.length (records data)) /\
    exists st, for_each tally_step (records data) tally_init = Ok st /\
               List.length ds = List.length (districts_data st).
Proof.
  intros Hv. destruct (compute_valid data Hv) as (s & ds & E).
  exists s, ds. split; [exact E|]. split; [eapply compute_sum_totals; eauto|].
  apply compute_ok in E as (features & st & Hf & Hst & _ & -> & ->).
  rewrite (records_features _ _ Hf). split; [reflexivity|].
  exists st. split; [exact Hst|].
  now rewrite length_sort_desc, length_map.
Qed.

(** C4 on the three-record example. *)
Lemma C4_district_totals_sum_witness :
  exists s ds, compute three_records = Ok (s, ds) /\ sum_totals ds = s_total_claims s.
Proof.
  destruct (C4_district_totals_sum three_records eq_refl) as (s & ds & E & H & _).
  exists s, ds. split; [exact E | exact H].
Defined.

(* ===================================================================== *)
(** ** C5: counter bounds *)

(** C5: after a well-formed document every district aggregate has
    [pending + approved <= total] and the summary has [approved_claims +
    pending_claims <= total_claims]; the bound does not extend to
    [conflicts], which the three-record example pushes past it. *)
Theorem C5_counter_bounds (data : json) :
  valid_collection data = true ->
  exists st s ds,
    for_each tally_step (records data) tally_init = Ok st /\
    compute data = Ok (s, ds) /\
    Forall (fun kv => pending (snd kv) + approved (snd kv) <= total (snd kv))
           (districts_data st) /\
    s_approved_claims s + s_pending_claims s <= s_total_claims s /\
    exists st3, tally_features (JList three_features) = Ok st3 /\
      Exists (fun kv => pending (snd kv) + approved (snd kv) + conflicts (snd kv)
                        > total (snd kv)) (districts_data st3).
Proof.
  intros Hv. destruct (compute_valid data Hv) as (s & ds & E).
  pose proof E as E'.
  apply compute_ok in E' as (features & st & Hf & Hst & HI & -> & ->).
  exists st. do 2 eexists. rewrite (records_features _ _ Hf).
  split; [exact Hst|]. split; [exact E|].
  destruct HI as (_ & Hok & Ha & Hp & Hc & Hle).
  split; [|split].
  - eapply Forall_impl; [|exact Hok]. intros kv H. unfold stats_ok in H. lia.
  - simpl. lia.
  - eexists. split; [vm_compute; reflexivity|].
    apply Exists_cons_hd. simpl. lia.
Qed.

(** C5 on the three-record example. *)
Lemma C5_counter_bounds_witness :
  exists s ds, compute three_records = Ok (s, ds) /\
    s_approved_claims s + s_pending_claims s <= s_total_claims s.
Proof.
  destruct (C5_counter_bounds three_records eq_refl) as (st & s & ds & _ & E & _ & H & _).
  exists s, ds. split; [exact E | exact H].
Defined.

(* ===================================================================== *)
(** ** C6: the ranking is sorted *)

Lemma sorted_desc_insert x l :
  not_nan (risk_score x) -> Forall (fun y => not_nan (risk_score y)) l ->
  sorted_desc l -> sorted_desc (insert_desc x l).
Proof.
  intros Hx Hl. induction Hl as [|y l Hy Hl IH]; intros Hs.
  - simpl. auto.
  - cbn [insert_desc].
    destruct (risk_score x <? risk_score y)%float eqn:Elt.
    + destruct Hs as (Hhead & Htail). specialize (IH Htail).
      cbn [sorted_desc]. split; [|exact IH].
      destruct l as [|z l']; cbn [insert_desc].
      * now apply ltb_leb.
      * destruct (risk_score x <? risk_score z)%float; [exact Hhead|].
        now apply ltb_leb.
    + cbn [sorted_desc]. split; [|exact Hs].
      rewrite (ltb_negb_leb _ _ Hy Hx) in Elt.
      now apply negb_false_iff in Elt.
Qed.

Lemma Forall_insert_desc (P : ranking -> Prop) x l :
  P x -> Forall P l -> Forall P (insert_desc x l).
Proof.
  intros Hx Hl. apply Forall_forall. intros r Hr.
  apply In_insert_desc in Hr as [-> | Hr]; [assumption|].
  rewrite Forall_forall in Hl. auto.
Qed.

Lemma sorted_desc_sort l :
  Forall (fun y => not_nan (risk_score y)) l -> sorted_desc (sort_desc l).
Proof.
  induction 1 as [|x l Hx Hl IH]; simpl; [exact I|].
  apply sorted_desc_insert; [assumption | | assumption].
  clear IH. induction Hl as [|y l Hy Hl IH]; simpl; [constructor|].
  now apply Forall_insert_desc.
Qed.

(** C6: for a document of fewer than [2^53] records, [compute] returns on
    every well-formed document, and whenever it returns, each entry of the
    returned list has a [risk_score] at or above that of the next entry. *)
Theorem C6_sorted_by_risk (data : json) :
  Z.of_nat (List.length (records data)) < 2 ^ 53 ->
  (valid_collection data = true -> exists s ds, compute data = Ok (s, ds)) /\
  (forall s ds, compute data = Ok (s, ds) -> sorted_desc ds).
Proof.
  intros Hsize. split; [apply compute_valid|].
  intros s ds E.
  apply compute_ok in E as (features & st & Hf & _ & HI & _ & ->).
  rewrite (records_features _ _ Hf) in *.
  destruct HI as (Hsum & Hok & _).
  apply sorted_desc_sort. apply Forall_forall. intros r Hr.
  apply In_rank_of in Hr as (name & agg & Hagg & ->).
  pose proof (total_le_sum _ _ _ Hok Hagg) as Hle.
  rewrite Forall_forall in Hok. specialize (Hok _ Hagg).
  unfold stats_ok in Hok. simpl in Hok. simpl.
  assert (Hscore : nonneg_le (score_of agg) 100%R) by (apply score_of_le; lia).
  destruct (py_round_score _ Hscore) as (Hround & _).
  eapply nonneg_le_not_nan; eauto.
Qed.

(** C6 on the three-record example. *)
Lemma C6_sorted_by_risk_witness :
  sorted_desc [ mkRanking (JStr "A") 2 1 1 50 "Moderate";
                mkRanking (JStr "B") 1 0 1 50 "Moderate" ].
Proof.
  exact (proj2 (C6_sorted_by_risk three_records eq_refl) _ _ eq_refl).
Defined.

(* ===================================================================== *)
(** ** C7: the empty input and the division guards *)

Lemma py_get_raise v key default e :
  py_get v key default = Raise e -> e <> ZeroDivisionError.
Proof. destruct v; simpl; intros [= <-]; discriminate. Qed.

Lemma py_len_raise v e : py_len v = Raise e -> e <> ZeroDivisionError.
Proof. destruct v; simpl; intros [= <-]; discriminate. Qed.

Lemma py_hash_raise v e : py_hash v = Raise e -> e <> ZeroDivisionError.
Proof. destruct v; simpl; intros [= <-]; discriminate. Qed.

Lemma tally_step_raise st feature e :
  tally_step st feature = Raise e -> e <> ZeroDivisionError.
Proof.
  unfold tally_step. intros H.
  repeat (apply bind_raise in H as [H | (? & _ & H)];
          [now apply py_get_raise in H|]).
  apply bind_raise in H as [H | (? & _ & H)]; [|discriminate].
  unfold district_counts in H.
  apply bind_raise in H as [H | (? & _ & H)]; [|discriminate].
  now apply py_hash_raise in H.
Qed.

(** No input makes [compute] divide by zero. *)
Lemma compute_never_divides_by_zero data e :
  compute data = Raise e -> e <> ZeroDivisionError.
Proof.
  unfold compute. intros H.
  apply bind_raise in H as [H | (features & _ & H)]; [now apply py_get_raise in H|].
  apply bind_raise in H as [H | (n & _ & H)]; [now apply py_len_raise in H|].
  apply bind_raise in H as [H | (st & _ & H)].
  { exact (for_each_raise tally_step (fun e => e <> ZeroDivisionError)
             tally_step_raise _ _ _ H). }
  rewrite rank_districts_eq, !pct_eq in H. discriminate.
Qed.

(** C7: a document whose [features] is the empty list (or is missing, which
    defaults to it) yields [total_claims] 0, both percentages 0 and no
    districts; a percentage over zero claims is 0 without dividing, and no
    input at all makes [compute] divide by zero. *)
Theorem C7_empty_input (items : list (string * json)) :
  assoc "features" items = Some (JList []) \/ assoc "features" items = None ->
  get_analytics (Ok (JDict items))
  = Analytics (mkSummary 0 0 0 0 (PyInt 0) (PyInt 0)) [] /\
  (forall count, pct count 0 = Ok (PyInt 0)) /\
  (forall data e, compute data = Raise e -> e <> ZeroDivisionError).
Proof.
  intros H. split; [|split].
  - unfold get_analytics, compute. cbn [bind py_get].
    destruct H as [-> | ->]; reflexivity.
  - reflexivity.
  - exact compute_never_divides_by_zero.
Qed.

(** C7 on the collection without records. *)
Lemma C7_empty_input_witness :
  get_analytics (Ok (collection []))
  = Analytics (mkSummary 0 0 0 0 (PyInt 0) (PyInt 0)) [].
Proof.
  exact (proj1 (C7_empty_input
                  [("type", JStr "FeatureCollection"); ("features", JList [])]
                  (or_introl eq_refl))).
Defined.

(* ===================================================================== *)
(** ** C8: missing fields *)

Lemma In_valid_record data feature :
  valid_collection data = true -> In feature (records data) ->
  valid_record feature = true.
Proof.
  unfold valid_collection, records. destruct data; try discriminate.
  destruct (assoc "features" items) as [[]|]; try discriminate; simpl.
  - intros H Hin. eapply forallb_forall in H; eauto.
  - intros _ [].
Qed.

(** C8: on a well-formed document [compute] returns whatever fields the
    records lack, and counts every record in [total_claims].  A record
    without [district] is counted under "Unknown".  A record without
    [status] adds one to its district's [total], nothing to any approved or
    pending counter, and one to the global and the district conflict
    counters exactly when it carries [overlap] or [protected_zone]. *)
Theorem C8_missing_fields (data : json) :
  valid_collection data = true ->
  (exists s ds, compute data = Ok (s, ds) /\
                s_total_claims s = Z.of_nat (List.length (records data))) /\
  forall feature st, In feature (records data) ->
    exists st', tally_step st feature = Ok st' /\
      (assoc "district" (props_of feature) = None ->
         dd_stats (JStr "Unknown") (districts_data st')
         = bump (f_status feature) (f_overlap feature) (f_protected feature)
                (dd_stats (JStr "Unknown") (districts_data st))) /\
      (assoc "status" (props_of feature) = None ->
         let k := if flagged feature then 1 else 0 in
         let old := dd_stats (f_district feature) (districts_data st) in
         approved_claims st' = approved_claims st /\
         pending_claims st' = pending_claims st /\
         conflict_claims st' = conflict_claims st + k /\
         dd_stats (f_district feature) (districts_data st')
         = mkStats (total old + 1) (pending old) (conflicts old + k) (approved old)).
Proof.
  intros Hv. split.
  - destruct (compute_valid data Hv) as (s & ds & E).
    exists s, ds. split; [exact E|].
    apply compute_ok in E as (features & st & Hf & _ & _ & -> & _).
    now rewrite (records_features _ _ Hf).
  - intros feature st Hin.
    pose proof (In_valid_record _ _ Hv Hin) as Hf.
    destruct (tally_step_valid st feature Hf) as (Hd & dd' & Hdd & E).
    eexists; split; [exact E|].
    cbn [districts_data conflict_claims approved_claims pending_claims].
    pose proof (dd_stats_after _ _ _ _ _ _ Hd Hdd) as Hnew.
    split.
    + intros Hnone. unfold f_district, field in Hnew. rewrite Hnone in Hnew.
      exact Hnew.
    + intros Hnone. rewrite Hnew.
      unfold global_counts, bump, flagged.
      assert (Hs : f_status feature = JStr "Unknown")
        by (unfold f_status, field; now rewrite Hnone).
      rewrite Hs. cbn [py_eq String.eqb Ascii.eqb Bool.eqb orb].
      rewrite orb_false_r.
      destruct (dd_stats (f_district feature) (districts_data st)) as [t p c a].
      destruct (truthy (f_overlap feature) || truthy (f_protected feature));
        unfold incr_conflicts, incr_total; simpl;
        repeat split; try lia; f_equal; lia.
Qed.

(** C8 on three records that lack [status], [district] or [properties]. *)
Lemma C8_missing_fields_witness :
  exists s ds, compute sparse_records = Ok (s, ds) /\ s_total_claims s = 3.
Proof.
  destruct (C8_missing_fields sparse_records eq_refl) as ((s & ds & E & H) & _).
  exists s, ds. split; [exact E | exact H].
Defined.

(* ===================================================================== *)
(** ** C9 and C10: [generate_report] *)

Lemma py_eq_str v name : py_eq v (JStr name) = true <-> v = JStr name.
Proof.
  destruct v; simpl; split; try discriminate.
  - intros H. apply String.eqb_eq in H. now subst.
  - intros [= ->]. apply String.eqb_refl.
Qed.

Lemma find_district_none name ds :
  find_district name ds = None <-> forall d, In d ds -> district d <> JStr name.
Proof.
  unfold find_district. split.
  - intros H d Hin Hd. eapply find_none in H; eauto.
    apply py_eq_str in Hd. congruence.
  - intros H. destruct (find _ ds) as [d|] eqn:E; [|reflexivity].
    apply find_some in E as (Hin & Hd). apply py_eq_str in Hd.
    exfalso. eapply H; eauto.
Qed.

(** C9: let the ranking list be computed.  A name that equals the
    [district] of no entry never yields a report or an exception but an
    error payload, which is the "No data found" one, with no call to the
    text service, once the credential is configured; and a report is only
    ever returned for a name that equals the [district] of an entry of the
    computed list. *)
Theorem C9_district_not_found (w : world) (name : string)
    (s : summary) (ds : list ranking) :
  get_analytics (DATA_FILE w) = Analytics s ds ->
  ((forall d, In d ds -> district d <> JStr name) ->
   (exists error evs, generate_report w name = (ReportError error, evs)) /\
   (key_unconfigured (GEMINI_API_KEY w) = false ->
    generate_report w name
    = (ReportError ("No data found for district: " ++ name)%string, [ReadStore]))) /\
  (forall n text evs, generate_report w name = (Report n text, evs) ->
   n = name /\ exists d, In d ds /\ district d = JStr name).
Proof.
  intros Ha. unfold generate_report. rewrite Ha. split.
  - intros Hno. apply find_district_none in Hno. rewrite Hno.
    destruct (key_unconfigured (GEMINI_API_KEY w)); split; eauto; discriminate.
  - intros n text evs H.
    destruct (key_unconfigured (GEMINI_API_KEY w)); [discriminate|].
    destruct (find_district name ds) as [d|] eqn:E; [|discriminate].
    apply find_some in E as (Hin & Hd). apply py_eq_str in Hd.
    destruct (generate_content w d); [|discriminate].
    injection H as <- _ _. eauto.
Qed.

(** C9 on a request for district C over the three-record example. *)
Lemma C9_district_not_found_witness :
  generate_report sample_world "C"
  = (ReportError "No data found for district: C", [ReadStore]).
Proof.
  refine (proj2 (proj1 (C9_district_not_found sample_world "C" _ _
                          three_records_run) _) eq_refl).
  intros d [<- | [<- | []]]; discriminate.
Defined.

(** C10: when the credential is unset or is the placeholder
    [your_gemini_api_key_here], every request gets the configuration error,
    whatever the district name, the store and the service are, and no
    external effect happens: the store is not read and the service is not
    called. *)
Theorem C10_credential_check_first (w : world) (name : string) :
  GEMINI_API_KEY w = None \/ GEMINI_API_KEY w = Some "your_gemini_api_key_here" ->
  generate_report w name = (ReportError config_error, []).
Proof.
  intros H. unfold generate_report.
  destruct H as [-> | ->]; reflexivity.
Qed.

(** C10 with the placeholder credential. *)
Lemma C10_credential_check_first_witness :
  generate_report unconfigured_world "A" = (ReportError config_error, []).
Proof. exact (C10_credential_check_first unconfigured_world "A" (or_intror eq_refl)). Defined.

(* ===================================================================== *)
(** * Further properties of the handlers *)

(** ** The documents [compute] accepts *)

Lemma tally_step_ok_valid st feature st' :
  tally_step st feature = Ok st' -> valid_record feature = true.
Proof.
  intros H.
  apply tally_step_ok in H
    as (props & d & status & overlap & protected & dd' & Hp & Hd & _ & _ & _ & Hdd & _).
  assert (Hh : hashable d = true).
  { unfold district_counts in Hdd. bind_inv Hdd u Hu. destruct u.
    now apply py_hash_hashable. }
  destruct feature; try discriminate. simpl in Hp. injection Hp as <-.
  unfold valid_record.
  destruct (assoc "properties" items) as [p|]; [|reflexivity].
  destruct p; try discriminate. simpl in Hd. injection Hd as <-.
  destruct (assoc "district" items0); [assumption | reflexivity].
Qed.

Lemma for_each_tally_valid xs st st' :
  for_each tally_step xs st = Ok st' -> forallb valid_record xs = true.
Proof.
  revert st; induction xs as [|x xs IH]; intros st; simpl; [reflexivity|].
  intros H. bind_inv H st1 H1.
  apply tally_step_ok_valid in H1 as ->. simpl. eauto.
Qed.

Lemma compute_ok_accepted data s ds :
  compute data = Ok (s, ds) -> accepted data = true.
Proof.
  intros H. unfold compute in H.
  bind_inv H features Hf. bind_inv H n Hn. bind_inv H st Hst.
  apply for_each_tally_valid in Hst.
  destruct data; try discriminate. simpl in Hf. injection Hf as <-.
  unfold accepted. destruct (assoc "features" items) as [v|]; [|reflexivity].
  destruct v; try discriminate; simpl in Hst.
  - destruct s0 as [|c s0]; [reflexivity | discriminate].
  - assumption.
  - destruct items0 as [|[k v] items0]; [reflexivity | discriminate].
Qed.

Lemma accepted_compute_ok data :
  accepted data = true -> exists s ds, compute data = Ok (s, ds).
Proof.
  intros H. unfold accepted in H. destruct data; try discriminate.
  assert (E : exists st n,
             tally_features match assoc "features" items with
                            | Some x => x | None => JList [] end = Ok st /\
             py_len match assoc "features" items with
                    | Some x => x | None => JList [] end = Ok n).
  { destruct (assoc "features" items) as [v|].
    - destruct v; try discriminate.
      + apply String.eqb_eq in H as ->. exists tally_init, 0. split; reflexivity.
      + destruct (tally_valid xs H) as (st & E & _).
        exists st. eexists. split; [exact E | reflexivity].
      + destruct items0; [|discriminate].
        exists tally_init, 0. split; reflexivity.
    - exists tally_init, 0. split; reflexivity. }
  destruct E as (st & n & Est & En).
  unfold compute. cbn [py_get bind]. rewrite En. cbn [bind]. rewrite Est. cbn [bind].
  rewrite rank_districts_eq, !pct_eq. cbn [bind]. eauto.
Qed.

(** X1: [get_analytics] returns the analytics exactly when the store is
    read and its document is a mapping whose [features] is missing, a list
    of records that are mappings with [properties] missing or a mapping and
    a hashable [district], an empty string or an empty mapping; in every
    other case it returns the error payload. *)
Theorem X1_analytics_succeeds_iff_accepted (store : result json) :
  ((exists s ds, get_analytics store = Analytics s ds) <->
   (exists data, store = Ok data /\ accepted data = true)) /\
  ((exists error, get_analytics store = AnalyticsError error) <->
   ~ (exists data, store = Ok data /\ accepted data = true)).
Proof.
  unfold get_analytics. destruct store as [data|e]; cbn [bind].
  - destruct (compute data) as [[s ds]|e] eqn:E.
    + apply compute_ok_accepted in E.
      split; split.
      * intros _. eauto.
      * intros _. eauto.
      * intros (error & H). discriminate.
      * intros H. exfalso. apply H. eauto.
    + assert (Hn : accepted data <> true).
      { intros Ha. apply accepted_compute_ok in Ha as (s & ds & Ha). congruence. }
      split; split.
      * intros (s & ds & H). discriminate.
      * intros (data' & [= <-] & Ha). contradiction.
      * intros _ (data' & [= <-] & Ha). contradiction.
      * intros _. eauto.
  - split; split.
    + intros (s & ds & H). discriminate.
    + intros (data & H & _). discriminate.
    + intros _ (data & H & _). discriminate.
    + intros _. eauto.
Qed.

(** ** The counters as counts of records *)

Lemma count_cons p x xs :
  count p (x :: xs) = (if p x then 1 else 0) + count p xs.
Proof.
  unfold count. cbn [filter]. destruct (p x); [|lia].
  cbn [List.length]. rewrite Nat2Z.inj_succ. lia.
Qed.

Lemma count_nonneg p xs : 0 <= count p xs.
Proof. unfold count. lia. Qed.

Lemma count_le_length p xs : count p xs <= Z.of_nat (List.length xs).
Proof. unfold count. pose proof (filter_length_le p xs). lia. Qed.

(** The global counters after one record. *)
Lemma global_counts_step feature st :
  let g := global_counts (f_status feature) (f_overlap feature)
                         (f_protected feature) st in
  approved_claims g = approved_claims st + (if is_approved feature then 1 else 0) /\
  pending_claims g = pending_claims st + (if is_pending feature then 1 else 0) /\
  conflict_claims g = conflict_claims st + (if global_conflict feature then 1 else 0).
Proof.
  unfold global_counts, global_conflict, is_approved, is_pending.
  destruct (py_eq (f_status feature) (JStr "Approved")) eqn:Ea.
  { apply py_eq_str in Ea. rewrite Ea. simpl. lia. }
  destruct (py_eq (f_status feature) (JStr "Pending")); [simpl; lia|].
  destruct (py_eq (f_status feature) (JStr "Conflict")
            || truthy (f_overlap feature) || truthy (f_protected feature));
    simpl; lia.
Qed.

Lemma tally_run_global xs : forall st st',
  for_each tally_step xs st = Ok st' ->
  approved_claims st' = approved_claims st + count is_approved xs /\
  pending_claims st' = pending_claims st + count is_pending xs /\
  conflict_claims st' = conflict_claims st + count global_conflict xs.
Proof.
  induction xs as [|x xs IH]; intros st st'; simpl.
  - intros [= <-]. unfold count; simpl. lia.
  - intros H. bind_inv H st1 H1.
    pose proof (tally_step_ok_valid _ _ _ H1) as Hv.
    destruct (tally_step_valid st x Hv) as (_ & dd' & _ & E).
    rewrite E in H1. injection H1 as <-.
    destruct (global_counts_step x st) as (Ea & Ep & Ec).
    destruct (IH _ _ H) as (Ia & Ip & Ic).
    cbn [approved_claims pending_claims conflict_claims] in Ia, Ip, Ic.
    rewrite !count_cons. lia.
Qed.

(** ** Sums over the districts *)

Lemma dd_sum_app proj dd1 dd2 :
  dd_sum proj (dd1 ++ dd2) = dd_sum proj dd1 + dd_sum proj dd2.
Proof.
  induction dd1 as [|[k v] dd1 IH]; simpl; [reflexivity|]. rewrite IH. lia.
Qed.

Lemma dd_sum_update_at proj i f k dd :
  (i < List.length dd)%nat -> (forall s, proj (f s) = proj s + k) ->
  dd_sum proj (update_at i f dd) = dd_sum proj dd + k.
Proof.
  intros Hi Hf; revert i Hi; induction dd as [|[key v] dd IH]; intros i Hi; simpl in *.
  - lia.
  - destruct i; simpl; [rewrite Hf; lia|]. rewrite IH by lia. lia.
Qed.

(** One record adds a constant to each counter of its district. *)
Lemma bump_counters feature s :
  let b := bump (f_status feature) (f_overlap feature) (f_protected feature) s in
  total b = total s + 1 /\
  pending b = pending s + (if is_pending feature then 1 else 0) /\
  approved b = approved s + (if is_approved feature then 1 else 0) /\
  conflicts b = conflicts s + (if district_conflict feature then 1 else 0).
Proof.
  unfold bump, is_pending, is_approved, district_conflict.
  destruct (py_eq (f_status feature) (JStr "Pending")) eqn:Ep.
  { apply py_eq_str in Ep. rewrite Ep.
    destruct (truthy (f_overlap feature) || truthy (f_protected feature)
              || py_eq (JStr "Pending") (JStr "Conflict")); simpl; lia. }
  destruct (py_eq (f_status feature) (JStr "Approved"));
    destruct (truthy (f_overlap feature) || truthy (f_protected feature)
              || py_eq (f_status feature) (JStr "Conflict")); simpl; lia.
Qed.

Lemma district_counts_sum proj k d status overlap protected dd dd' :
  district_counts d status overlap protected dd = Ok dd' ->
  proj zero_stats = 0 ->
  (forall s, proj (bump status overlap protected s) = proj s + k) ->
  dd_sum proj dd' = dd_sum proj dd + k.
Proof.
  intros H Hz Hk.
  assert (Hd : hashable d = true).
  { unfold district_counts in H. bind_inv H u Hu. destruct u.
    now apply py_hash_hashable. }
  destruct (district_counts_shape d status overlap protected dd Hd) as (i & Hi & E).
  rewrite E in H. injection H as <-.
  rewrite (dd_sum_update_at proj i _ k) by (eauto using find_slot_lt).
  unfold with_key. destruct (negb (dd_mem d dd)); [|reflexivity].
  rewrite dd_sum_app. simpl. lia.
Qed.

Lemma tally_run_sums xs : forall st st',
  for_each tally_step xs st = Ok st' ->
  dd_sum total (districts_data st')
  = dd_sum total (districts_data st) + Z.of_nat (List.length xs) /\
  dd_sum pending (districts_data st')
  = dd_sum pending (districts_data st) + count is_pending xs /\
  dd_sum approved (districts_data st')
  = dd_sum approved (districts_data st) + count is_approved xs /\
  dd_sum conflicts (districts_data st')
  = dd_sum conflicts (districts_data st) + count district_conflict xs.
Proof.
  induction xs as [|x xs IH]; intros st st'.
  - simpl. intros [= <-]. unfold count; simpl. lia.
  - cbn [for_each]. intros H. bind_inv H st1 H1.
    pose proof (tally_step_ok_valid _ _ _ H1) as Hv.
    destruct (tally_step_valid st x Hv) as (_ & dd' & Hdd & E).
    rewrite E in H1. injection H1 as <-.
    destruct (IH _ _ H) as (It & Ip & Ia & Ic).
    cbn [districts_data] in It, Ip, Ia, Ic.
    pose proof (fun s => proj1 (bump_counters x s)) as Bt.
    pose proof (fun s => proj1 (proj2 (bump_counters x s))) as Bp.
    pose proof (fun s => proj1 (proj2 (proj2 (bump_counters x s)))) as Ba.
    pose proof (fun s => proj2 (proj2 (proj2 (bump_counters x s)))) as Bc.
    cbv zeta in Bt, Bp, Ba, Bc.
    rewrite (district_counts_sum total _ _ _ _ _ _ _ Hdd eq_refl Bt) in It.
    rewrite (district_counts_sum pending _ _ _ _ _ _ _ Hdd eq_refl Bp) in Ip.
    rewrite (district_counts_sum approved _ _ _ _ _ _ _ Hdd eq_refl Ba) in Ia.
    rewrite (district_counts_sum conflicts _ _ _ _ _ _ _ Hdd eq_refl Bc) in Ic.
    rewrite !count_cons. cbn [List.length]. rewrite Nat2Z.inj_succ. lia.
Qed.

Lemma rank_sum_insert_desc proj x l :
  rank_sum proj (insert_desc x l) = proj x + rank_sum proj l.
Proof.
  induction l as [|y l IH]; simpl; [reflexivity|].
  destruct (risk_score x <? risk_score y)%float; simpl; [rewrite IH|]; lia.
Qed.

Lemma rank_sum_sort_desc proj l : rank_sum proj (sort_desc l) = rank_sum proj l.
Proof.
  induction l as [|x l IH]; simpl; [reflexivity|].
  now rewrite rank_sum_insert_desc, IH.
Qed.

Lemma rank_sum_rank_of (rproj : ranking -> Z) (sproj : stats -> Z) dd :
  (forall item, rproj (rank_of item) = sproj (snd item)) ->
  rank_sum rproj (map rank_of dd) = dd_sum sproj dd.
Proof.
  intros H. induction dd as [|kv dd IH]; simpl; [reflexivity|].
  now rewrite H, IH.
Qed.

(** What [compute] returns, in terms of the records. *)
Lemma compute_ok_records data s ds :
  compute data = Ok (s, ds) ->
  exists st,
    for_each tally_step (records data) tally_init = Ok st /\
    tally_inv (List.length (records data)) st /\
    s = mkSummary (Z.of_nat (List.length (records data)))
          (approved_claims st) (pending_claims st) (conflict_claims st)
          (pct_of (approved_claims st) (Z.of_nat (List.length (records data))))
          (pct_of (pending_claims st) (Z.of_nat (List.length (records data)))) /\
    ds = sort_desc (map rank_of (districts_data st)).
Proof.
  intros H. apply compute_ok in H as (features & st & Hf & Hst & HI & -> & ->).
  rewrite (records_features _ _ Hf). exists st. auto.
Qed.

(** X2: the counters of the summary are counts of records.
    [total_claims] is the number of records, [approved_claims] and
    [pending_claims] the numbers of records whose status is Approved and
    Pending, and [conflict_claims] the number of records that are neither
    and have the status Conflict or a true [overlap] or [protected_zone];
    the three classes are disjoint, so their sum is at most
    [total_claims]. *)
Theorem X2_summary_counts_records (data : json) (s : summary) (ds : list ranking) :
  compute data = Ok (s, ds) ->
  s_total_claims s = Z.of_nat (List.length (records data)) /\
  s_approved_claims s = count is_approved (records data) /\
  s_pending_claims s = count is_pending (records data) /\
  s_conflict_claims s = count global_conflict (records data) /\
  s_approved_claims s + s_pending_claims s + s_conflict_claims s <= s_total_claims s.
Proof.
  intros H. apply compute_ok_records in H as (st & Hst & HI & -> & _).
  destruct (tally_run_global _ _ _ Hst) as (Ea & Ep & Ec).
  destruct HI as (_ & _ & _ & _ & _ & Hle).
  cbn [s_total_claims s_approved_claims s_pending_claims s_conflict_claims].
  cbn [approved_claims pending_claims conflict_claims tally_init] in Ea, Ep, Ec.
  repeat split; lia.
Qed.

Lemma X2_summary_counts_records_witness :
  s_total_claims three_summary = Z.of_nat (List.length (records three_records)) /\
  s_approved_claims three_summary = count is_approved (records three_records) /\
  s_pending_claims three_summary = count is_pending (records three_records) /\
  s_conflict_claims three_summary = count global_conflict (records three_records) /\
  s_approved_claims three_summary + s_pending_claims three_summary
  + s_conflict_claims three_summary <= s_total_claims three_summary.
Proof.
  assert (E : compute three_records = Ok (three_summary, three_ranking))
    by (vm_compute; reflexivity).
  exact (X2_summary_counts_records three_records _ _ E).
Defined.

(** X3: the [pending] counters of the returned districts add up to the
    summary's [pending_claims].  The [conflicts] counters add up to
    [conflict_claims] plus the number of Approved or Pending records that
    have the status Conflict or a true flag, which the global counter
    leaves out; so [conflict_claims] is at most the districts' sum. *)
Theorem X3_district_sums_match_summary (data : json) (s : summary) (ds : list ranking) :
  compute data = Ok (s, ds) ->
  rank_sum r_pending ds = s_pending_claims s /\
  rank_sum r_conflicts ds
  = s_conflict_claims s
    + count (fun f => (is_approved f || is_pending f) && district_conflict f)
            (records data) /\
  s_conflict_claims s <= rank_sum r_conflicts ds.
Proof.
  intros H. apply compute_ok_records in H as (st & Hst & HI & -> & ->).
  destruct (tally_run_global _ _ _ Hst) as (_ & Ep & Ec).
  destruct (tally_run_sums _ _ _ Hst) as (_ & Sp & _ & Sc).
  cbn [s_pending_claims s_conflict_claims].
  cbn [pending_claims conflict_claims districts_data tally_init dd_sum fold_right]
    in Ep, Ec, Sp, Sc.
  rewrite !rank_sum_sort_desc.
  rewrite (rank_sum_rank_of r_pending pending) by (now intros [k v]).
  rewrite (rank_sum_rank_of r_conflicts conflicts) by (now intros [k v]).
  assert (Hsplit : forall xs,
    count district_conflict xs
    = count global_conflict xs
      + count (fun f => (is_approved f || is_pending f) && district_conflict f) xs).
  { induction xs as [|x xs IH]; [reflexivity|]. rewrite !count_cons, IH.
    generalize (count global_conflict xs).
    generalize (count (fun f => (is_approved f || is_pending f)
                                && district_conflict f) xs).
    intros c1 c2.
    unfold global_conflict, district_conflict, is_approved, is_pending.
    destruct (py_eq (f_status x) (JStr "Approved"));
      destruct (py_eq (f_status x) (JStr "Pending"));
      destruct (truthy (f_overlap x)); destruct (truthy (f_protected x));
      destruct (py_eq (f_status x) (JStr "Conflict"));
      cbn [negb andb orb]; lia. }
  pose proof (count_nonneg
    (fun f => (is_approved f || is_pending f) && district_conflict f) (records data)).
  rewrite Sp, Sc, Ep, Ec, Hsplit. repeat split; lia.
Qed.

Lemma X3_district_sums_match_summary_witness :
  rank_sum r_pending three_ranking = s_pending_claims three_summary /\
  rank_sum r_conflicts three_ranking
  = s_conflict_claims three_summary
    + count (fun f => (is_approved f || is_pending f) && district_conflict f)
            (records three_records) /\
  s_conflict_claims three_summary <= rank_sum r_conflicts three_ranking.
Proof.
  assert (E : compute three_records = Ok (three_summary, three_ranking))
    by (vm_compute; reflexivity).
  exact (X3_district_sums_match_summary three_records _ _ E).
Defined.

(** ** The aggregate of a named district *)

Lemma key_eq_str k name : key_eq k (JStr name) = true <-> k = JStr name.
Proof.
  unfold key_eq. split.
  - intros H. apply orb_true_iff in H as [H | H].
    + apply andb_true_iff in H as (_ & H). discriminate.
    + now apply py_eq_str.
  - intros ->. simpl. now rewrite String.eqb_refl.
Qed.

Lemma py_eq_str_l name d : py_eq (JStr name) d = true <-> d = JStr name.
Proof.
  destruct d; simpl; split; try discriminate.
  - intros H. apply String.eqb_eq in H. now subst.
  - intros [= ->]. apply String.eqb_refl.
Qed.

(** The slot a lookup finds holds a key that matches. *)
Lemma find_slot_key d dd i :
  find_slot d dd = Some i ->
  exists k v, nth_error dd i = Some (k, v) /\ key_eq k d = true.
Proof.
  revert i; induction dd as [|[k v] dd IH]; intros i; simpl; [discriminate|].
  destruct (key_eq k d) eqn:E; [intros [= <-]; simpl; eauto|].
  destruct (find_slot d dd) as [j|]; simpl; [|discriminate].
  intros [= <-]. simpl. eauto.
Qed.

Lemma find_slot_app_other d k z dd :
  key_eq k d = false -> find_slot d (dd ++ [(k, z)]) = find_slot d dd.
Proof.
  intros Hk. induction dd as [|[k' v] dd IH]; simpl; [now rewrite Hk|].
  destruct (key_eq k' d); [reflexivity|]. now rewrite IH.
Qed.

Lemma nth_error_update_at_other i j f dd :
  i <> j -> nth_error (update_at i f dd) j = nth_error dd j.
Proof.
  revert i j; induction dd as [|[k v] dd IH]; intros i j Hij; simpl.
  - reflexivity.
  - destruct i, j; simpl; try reflexivity; try congruence.
    apply IH. congruence.
Qed.

(** A record of another district leaves the aggregate of [name] alone. *)
Lemma dd_stats_frame name d status overlap protected dd dd' :
  hashable d = true -> py_eq d (JStr name) = false ->
  district_counts d status overlap protected dd = Ok dd' ->
  dd_stats (JStr name) dd' = dd_stats (JStr name) dd.
Proof.
  intros Hd Hne H.
  destruct (district_counts_shape d status overlap protected dd Hd) as (i & Hi & E).
  rewrite E in H. injection H as <-.
  assert (Hk : key_eq d (JStr name) = false).
  { destruct (key_eq d (JStr name)) eqn:Ek; [|reflexivity].
    apply key_eq_str in Ek. subst. simpl in Hne.
    now rewrite String.eqb_refl in Hne. }
  assert (Hw : dd_stats (JStr name) (with_key d dd) = dd_stats (JStr name) dd).
  { unfold with_key. destruct (negb (dd_mem d dd)); [|reflexivity].
    unfold dd_stats, dd_get. rewrite find_slot_app_other by assumption.
    destruct (find_slot (JStr name) dd) as [j|] eqn:Ej; [|reflexivity].
    apply find_slot_lt in Ej. now rewrite nth_error_app1. }
  rewrite <- Hw. unfold dd_stats, dd_get. rewrite find_slot_update_at.
  destruct (find_slot (JStr name) (with_key d dd)) as [j|] eqn:Ej; [|reflexivity].
  rewrite nth_error_update_at_other; [reflexivity|].
  intros <-.
  apply find_slot_key in Hi as (k & v & Hn & Hkd).
  apply find_slot_key in Ej as (k' & v' & Hn' & Hkn).
  rewrite Hn in Hn'. injection Hn' as <- <-.
  apply key_eq_str in Hkn. subst k.
  unfold key_eq in Hkd. simpl in Hkd. apply py_eq_str_l in Hkd. subst d.
  simpl in Hne. now rewrite String.eqb_refl in Hne.
Qed.

Lemma tally_run_district name xs : forall st st',
  for_each tally_step xs st = Ok st' ->
  let old := dd_stats (JStr name) (districts_data st) in
  let new := dd_stats (JStr name) (districts_data st') in
  total new = total old + count (in_district name) xs /\
  pending new
  = pending old + count (fun f => in_district name f && is_pending f) xs /\
  approved new
  = approved old + count (fun f => in_district name f && is_approved f) xs /\
  conflicts new
  = conflicts old + count (fun f => in_district name f && district_conflict f) xs.
Proof.
  induction xs as [|x xs IH]; intros st st'.
  - simpl. intros [= <-]. unfold count; simpl. lia.
  - cbn [for_each]. intros H. bind_inv H st1 H1.
    pose proof (tally_step_ok_valid _ _ _ H1) as Hv.
    destruct (tally_step_valid st x Hv) as (Hd & dd' & Hdd & E).
    rewrite E in H1. injection H1 as <-.
    specialize (IH _ _ H). cbv zeta in IH. cbn [districts_data] in IH.
    destruct IH as (It & Ip & Ia & Ic).
    cbv zeta. rewrite !count_cons. unfold in_district at 1 3 5 7.
    destruct (py_eq (f_district x) (JStr name)) eqn:En.
    + apply py_eq_str in En.
      pose proof (dd_stats_after _ _ _ _ _ _ Hd Hdd) as Hnew. rewrite En in Hnew.
      rewrite Hnew in It, Ip, Ia, Ic.
      destruct (bump_counters x (dd_stats (JStr name) (districts_data st)))
        as (Bt & Bp & Ba & Bc).
      cbn [andb]. lia.
    + rewrite (dd_stats_frame _ _ _ _ _ _ _ Hd En Hdd) in It, Ip, Ia, Ic.
      cbn [andb]. lia.
Qed.

(** The entry of a key that occurs once is what a lookup returns. *)
Lemma In_dd_stats_str name v dd :
  NoDup (map fst dd) -> In (JStr name, v) dd -> dd_stats (JStr name) dd = v.
Proof.
  intros Hnd. induction dd as [|[k' v'] dd IH]; simpl; [intros []|].
  inversion Hnd as [|? ? Hnotin Hnd']; subst.
  unfold dd_stats, dd_get. simpl.
  destruct (key_eq k' (JStr name)) eqn:E.
  - apply key_eq_str in E. subst k'. simpl.
    intros [[= ->] | Hin]; [reflexivity|].
    exfalso. apply Hnotin. apply in_map_iff. now exists (JStr name, v).
  - intros [[= -> ->] | Hin].
    + unfold key_eq in E. simpl in E. now rewrite String.eqb_refl in E.
    + specialize (IH Hnd' Hin). unfold dd_stats, dd_get in IH.
      destruct (find_slot (JStr name) dd) as [i|]; simpl in *; assumption.
Qed.

(** ** The keys of the aggregates *)

Lemma map_fst_update_at i f dd : map fst (update_at i f dd) = map fst dd.
Proof.
  revert i; induction dd as [|[k v] dd IH]; intros i; simpl; [reflexivity|].
  destruct i; simpl; [reflexivity|]. now rewrite IH.
Qed.

Lemma dd_mem_existsb d dd :
  dd_mem d dd = existsb (fun k => key_eq k d) (map fst dd).
Proof.
  unfold dd_mem. induction dd as [|[k v] dd IH]; simpl; [reflexivity|].
  destruct (key_eq k d); [reflexivity|]. simpl.
  rewrite <- IH. now destruct (find_slot d dd).
Qed.

Lemma district_counts_keys d status overlap protected dd dd' :
  district_counts d status overlap protected dd = Ok dd' ->
  hashable d = true /\
  map fst dd'
  = if existsb (fun k => key_eq k d) (map fst dd) then map fst dd
    else map fst dd ++ [d].
Proof.
  intros H.
  assert (Hd : hashable d = true).
  { unfold district_counts in H. bind_inv H u Hu. destruct u.
    now apply py_hash_hashable. }
  split; [exact Hd|].
  destruct (district_counts_shape d status overlap protected dd Hd) as (i & Hi & E).
  rewrite E in H. injection H as <-.
  rewrite map_fst_update_at. unfold with_key. rewrite dd_mem_existsb.
  destruct (existsb (fun k => key_eq k d) (map fst dd)); simpl; [reflexivity|].
  now rewrite map_app.
Qed.

(** The aggregates are keyed by the districts in the order in which the
    records first mention them. *)
Lemma tally_run_keys xs : forall st st',
  for_each tally_step xs st = Ok st' ->
  map fst (districts_data st')
  = first_seen (map fst (districts_data st)) (map f_district xs).
Proof.
  induction xs as [|x xs IH]; intros st st'.
  - simpl. now intros [= <-].
  - cbn [for_each]. intros H. bind_inv H st1 H1.
    pose proof (tally_step_ok_valid _ _ _ H1) as Hv.
    destruct (tally_step_valid st x Hv) as (_ & dd' & Hdd & E).
    rewrite E in H1. injection H1 as <-.
    rewrite (IH _ _ H). cbn [districts_data map first_seen].
    destruct (district_counts_keys _ _ _ _ _ _ Hdd) as (_ & ->).
    now destruct (existsb (fun k => key_eq k (f_district x))
                          (map fst (districts_data st))).
Qed.

Lemma existsb_key_eq_In d keys :
  hashable d = true -> In d keys -> existsb (fun k => key_eq k d) keys = true.
Proof.
  intros Hd Hin. apply existsb_exists. exists d. split; [assumption|].
  now apply key_eq_refl.
Qed.

Lemma first_seen_NoDup keys : forall seen,
  Forall (fun d => hashable d = true) keys ->
  NoDup seen -> NoDup (first_seen seen keys).
Proof.
  induction keys as [|d keys IH]; intros seen Hh Hnd; simpl; [assumption|].
  inversion Hh as [|? ? Hd Hkeys]; subst.
  destruct (existsb (fun k => key_eq k d) seen) eqn:E; [now apply IH|].
  apply IH; [assumption|].
  apply NoDup_app; [assumption | repeat constructor; intros [] | ].
  intros a Ha [Ea | []]. subst a.
  now rewrite (existsb_key_eq_In d seen Hd Ha) in E.
Qed.

Lemma first_seen_incl keys : forall seen k,
  In k seen -> In k (first_seen seen keys).
Proof.
  induction keys as [|d keys IH]; intros seen k Hk; simpl; [assumption|].
  destruct (existsb (fun k0 => key_eq k0 d) seen); apply IH; [assumption|].
  apply in_or_app. now left.
Qed.

(** Every key is matched by a key of [first_seen]. *)
Lemma first_seen_covers keys : forall seen d,
  Forall (fun d => hashable d = true) keys -> In d keys ->
  exists k, In k (first_seen seen keys) /\ key_eq k d = true.
Proof.
  induction keys as [|d' keys IH]; intros seen d Hh; simpl; [intros []|].
  inversion Hh as [|? ? Hd' Hkeys]; subst.
  intros [-> | Hin].
  - destruct (existsb (fun k => key_eq k d) seen) eqn:E.
    + apply existsb_exists in E as (k & Hk & Hkd).
      exists k. split; [now apply first_seen_incl | assumption].
    + exists d. split; [|now apply key_eq_refl].
      apply first_seen_incl, in_or_app. right. now left.
  - destruct (existsb (fun k => key_eq k d') seen); now apply IH.
Qed.

(** ** The sort *)

Lemma insert_desc_perm x l : Permutation (insert_desc x l) (x :: l).
Proof.
  induction l as [|y l IH]; simpl; [reflexivity|].
  destruct (risk_score x <? risk_score y)%float; [|reflexivity].
  rewrite IH. apply perm_swap.
Qed.

Lemma sort_desc_perm l : Permutation (sort_desc l) l.
Proof.
  induction l as [|x l IH]; simpl; [reflexivity|].
  now rewrite insert_desc_perm, IH.
Qed.

Lemma SFcompare_refl x : SFcompare x x = None \/ SFcompare x x = Some Eq.
Proof.
  destruct x as [s|s| |s m e]; simpl; auto; right.
  - now destruct s.
  - rewrite Z.compare_refl, Pos.compare_cont_refl. now destruct s.
Qed.

Lemma ltb_irrefl x : (x <? x)%float = false.
Proof.
  rewrite FloatAxioms.ltb_spec. unfold SFltb.
  now destruct (SFcompare_refl (Prim2SF x)) as [-> | ->].
Qed.

(** An insertion never moves an entry past one of the same score. *)
Lemma with_score_insert_desc k x l :
  with_score k (insert_desc x l) = with_score k (x :: l).
Proof.
  induction l as [|y l IH]; [reflexivity|].
  cbn [insert_desc].
  destruct (risk_score x <? risk_score y)%float eqn:Elt; [|reflexivity].
  unfold with_score in *. cbn [filter] in *. rewrite IH.
  destruct (PrimFloat.Leibniz.eqb (risk_score x) k) eqn:Ex;
    destruct (PrimFloat.Leibniz.eqb (risk_score y) k) eqn:Ey; try reflexivity.
  apply FloatAxioms.Leibniz.eqb_spec in Ex, Ey.
  rewrite Ex, Ey, ltb_irrefl in Elt. discriminate.
Qed.

Lemma with_score_sort_desc k l : with_score k (sort_desc l) = with_score k l.
Proof.
  induction l as [|x l IH]; [reflexivity|].
  cbn [sort_desc fold_right]. fold (sort_desc l).
  rewrite with_score_insert_desc. unfold with_score in *. cbn [filter].
  now rewrite IH.
Qed.

(** ** The returned ranking *)

Lemma map_district_rank_of dd : map district (map rank_of dd) = map fst dd.
Proof.
  induction dd as [|[k v] dd IH]; simpl; [reflexivity|]. now rewrite IH.
Qed.

Lemma records_hashable xs st st' :
  for_each tally_step xs st = Ok st' ->
  Forall (fun d => hashable d = true) (map f_district xs).
Proof.
  intros H. apply for_each_tally_valid in H.
  rewrite forallb_forall in H. apply Forall_forall. intros d Hd.
  apply in_map_iff in Hd as (x & <- & Hx).
  exact (proj1 (tally_step_valid tally_init x (H x Hx))).
Qed.

Lemma first_seen_from keys : forall seen k,
  In k (first_seen seen keys) -> In k seen \/ In k keys.
Proof.
  induction keys as [|d keys IH]; intros seen k; simpl; [auto|].
  destruct (existsb (fun k0 => key_eq k0 d) seen); intros H;
    apply IH in H as [H | H]; auto.
  apply in_app_or in H as [H | [<- | []]]; auto.
Qed.

(** The districts of the ranking are, up to order, the districts of the
    records on their first appearance. *)
Lemma ranking_keys_perm data s ds :
  compute data = Ok (s, ds) ->
  Forall (fun d => hashable d = true) (map f_district (records data)) /\
  Permutation (map district ds) (first_seen [] (map f_district (records data))).
Proof.
  intros H. apply compute_ok_records in H as (st & Hst & _ & _ & ->).
  pose proof (tally_run_keys _ _ _ Hst) as Hkeys.
  cbn [districts_data tally_init map] in Hkeys.
  split; [exact (records_hashable _ _ _ Hst)|].
  rewrite <- Hkeys, <- map_district_rank_of. apply Permutation_map, sort_desc_perm.
Qed.

(** X4: the ranking is a stable sort.  It is a permutation of the list
    that has one entry per district in the order in which the records first
    mention the districts, and the entries of any one [risk_score] keep the
    order they have in that list. *)
Theorem X4_ranking_is_stable_sort (data : json) (s : summary) (ds : list ranking) :
  compute data = Ok (s, ds) ->
  exists pre,
    map district pre = first_seen [] (map f_district (records data)) /\
    Permutation ds pre /\
    forall k, with_score k ds = with_score k pre.
Proof.
  intros H. apply compute_ok_records in H as (st & Hst & _ & _ & ->).
  exists (map rank_of (districts_data st)). split; [|split].
  - rewrite map_district_rank_of. exact (tally_run_keys _ _ _ Hst).
  - apply sort_desc_perm.
  - intros k. apply with_score_sort_desc.
Qed.

Lemma X4_ranking_is_stable_sort_witness :
  exists pre,
    map district pre = first_seen [] (map f_district (records three_records)) /\
    Permutation three_ranking pre /\
    forall k, with_score k three_ranking = with_score k pre.
Proof.
  assert (E : compute three_records = Ok (three_summary, three_ranking))
    by (vm_compute; reflexivity).
  exact (X4_ranking_is_stable_sort three_records _ _ E).
Defined.

(** X5: no district is listed twice in the ranking, the district of every
    record is listed (under the key that compares equal to it), and every
    listed district is the district of some record. *)
Theorem X5_ranking_districts (data : json) (s : summary) (ds : list ranking) :
  compute data = Ok (s, ds) ->
  NoDup (map district ds) /\
  (forall f, In f (records data) ->
     exists r, In r ds /\ key_eq (district r) (f_district f) = true) /\
  (forall r, In r ds -> exists f, In f (records data) /\ district r = f_district f).
Proof.
  intros H. apply ranking_keys_perm in H as (Hh & Hperm).
  split; [|split].
  - eapply Permutation_NoDup; [symmetry; exact Hperm|].
    apply first_seen_NoDup; [assumption | constructor].
  - intros f Hf.
    destruct (first_seen_covers (map f_district (records data)) [] (f_district f) Hh
                (in_map f_district _ _ Hf)) as (k & Hk & Hkf).
    eapply Permutation_in in Hk; [|symmetry; exact Hperm].
    apply in_map_iff in Hk as (r & <- & Hr). eauto.
  - intros r Hr.
    assert (Hd : In (district r) (first_seen [] (map f_district (records data)))).
    { eapply Permutation_in; [exact Hperm|]. now apply in_map. }
    apply first_seen_from in Hd as [[] | Hd].
    apply in_map_iff in Hd as (f & <- & Hf). eauto.
Qed.

Lemma X5_ranking_districts_witness :
  NoDup (map district three_ranking) /\
  (forall f, In f (records three_records) ->
     exists r, In r three_ranking /\ key_eq (district r) (f_district f) = true) /\
  (forall r, In r three_ranking ->
     exists f, In f (records three_records) /\ district r = f_district f).
Proof.
  assert (E : compute three_records = Ok (three_summary, three_ranking))
    by (vm_compute; reflexivity).
  exact (X5_ranking_districts three_records _ _ E).
Defined.

(** The entry of a district named by a string. *)
Lemma named_entry_counts data s ds name r :
  compute data = Ok (s, ds) -> In r ds -> district r = JStr name ->
  total_claims r = count (in_district name) (records data) /\
  r_pending r
  = count (fun f => in_district name f && is_pending f) (records data) /\
  r_conflicts r
  = count (fun f => in_district name f && district_conflict f) (records data).
Proof.
  intros H Hr Hname. pose proof (ranking_keys_perm _ _ _ H) as (Hh & _).
  apply compute_ok_records in H as (st & Hst & _ & _ & ->).
  apply In_sort_desc, In_rank_of in Hr as (k & agg & Hagg & ->).
  simpl in Hname. subst k.
  pose proof (tally_run_keys _ _ _ Hst) as Hkeys.
  assert (Hnd : NoDup (map fst (districts_data st))).
  { rewrite Hkeys. apply first_seen_NoDup; [assumption | constructor]. }
  pose proof (In_dd_stats_str _ _ _ Hnd Hagg) as Hagg'.
  destruct (tally_run_district name _ _ _ Hst) as (Et & Ep & _ & Ec).
  rewrite Hagg' in Et, Ep, Ec. simpl in Et, Ep, Ec. simpl. lia.
Qed.

Lemma named_entry_exists data s ds name :
  compute data = Ok (s, ds) ->
  0 < count (in_district name) (records data) ->
  exists r, In r ds /\ district r = JStr name.
Proof.
  intros H Hpos. apply ranking_keys_perm in H as (Hh & Hperm).
  assert (Hex : exists f, In f (records data) /\ in_district name f = true).
  { unfold count in Hpos.
    destruct (filter (in_district name) (records data)) as [|f l] eqn:E;
      [simpl in Hpos; lia|].
    exists f. apply filter_In. rewrite E. now left. }
  destruct Hex as (f & Hf & Hin).
  destruct (first_seen_covers (map f_district (records data)) [] (f_district f) Hh
              (in_map f_district _ _ Hf)) as (k & Hk & Hkf).
  eapply Permutation_in in Hk; [|symmetry; exact Hperm].
  apply in_map_iff in Hk as (r & <- & Hr).
  exists r. split; [assumption|].
  unfold in_district in Hin. apply py_eq_str in Hin. rewrite Hin in Hkf.
  now apply key_eq_str in Hkf.
Qed.

(** X6: the entry of a district named by a string counts the records of
    that district: [total_claims] all of them, [pending] the Pending ones,
    [conflicts] those with the status Conflict or a true [overlap] or
    [protected_zone]; and a district with at least one record has an
    entry. *)
Theorem X6_named_district_counts (data : json) (s : summary) (ds : list ranking)
    (name : string) :
  compute data = Ok (s, ds) ->
  (forall r, In r ds -> district r = JStr name ->
     total_claims r = count (in_district name) (records data) /\
     r_pending r
     = count (fun f => in_district name f && is_pending f) (records data) /\
     r_conflicts r
     = count (fun f => in_district name f && district_conflict f) (records data)) /\
  (0 < count (in_district name) (records data) ->
   exists r, In r ds /\ district r = JStr name).
Proof.
  intros H. split.
  - intros r. now apply named_entry_counts with (s := s).
  - now apply named_entry_exists with (s := s).
Qed.

Lemma X6_named_district_counts_witness :
  (forall r, In r three_ranking -> district r = JStr "A" ->
     total_claims r = count (in_district "A") (records three_records) /\
     r_pending r
     = count (fun f => in_district "A" f && is_pending f) (records three_records) /\
     r_conflicts r
     = count (fun f => in_district "A" f && district_conflict f)
             (records three_records)) /\
  (0 < count (in_district "A") (records three_records) ->
   exists r, In r three_ranking /\ district r = JStr "A").
Proof.
  assert (E : compute three_records = Ok (three_summary, three_ranking))
    by (vm_compute; reflexivity).
  exact (X6_named_district_counts three_records _ _ "A" E).
Defined.

(** X7: every returned entry has at least one claim and at most as many
    as the summary's [total_claims]; its [pending] and its [conflicts] lie
    between zero and its [total_claims]; and its level is one of Low,
    Moderate and High. *)
Theorem X7_ranking_entry_bounds (data : json) (s : summary) (ds : list ranking)
    (r : ranking) :
  compute data = Ok (s, ds) -> In r ds ->
  1 <= total_claims r <= s_total_claims s /\
  0 <= r_pending r <= total_claims r /\
  0 <= r_conflicts r <= total_claims r /\
  (risk_level r = "Low" \/ risk_level r = "Moderate" \/ risk_level r = "High").
Proof.
  intros H Hr. apply compute_ok_records in H as (st & _ & HI & -> & ->).
  apply In_sort_desc, In_rank_of in Hr as (k & agg & Hagg & ->).
  destruct HI as (Hsum & Hok & _).
  pose proof (total_le_sum _ _ _ Hok Hagg) as Hle.
  rewrite Forall_forall in Hok. specialize (Hok _ Hagg).
  unfold stats_ok in Hok. simpl in Hok. simpl.
  repeat split; try lia.
  unfold classify.
  destruct (score_of agg <=? 40)%float; [auto|].
  destruct (score_of agg <=? 70)%float; auto.
Qed.

Lemma X7_ranking_entry_bounds_witness :
  1 <= 2 <= s_total_claims three_summary /\ 0 <= 1 <= 2.
Proof.
  assert (E : compute three_records = Ok (three_summary, three_ranking))
    by (vm_compute; reflexivity).
  destruct (X7_ranking_entry_bounds three_records _ _
              (mkRanking (JStr "A") 2 1 1 50 "Moderate") E (or_introl eq_refl))
    as (Ht & Hp & _).
  exact (conj Ht Hp).
Defined.

(** X8: the ranking has at most as many entries as there are records, and
    it is empty exactly when there is no record. *)
Theorem X8_ranking_size (data : json) (s : summary) (ds : list ranking) :
  compute data = Ok (s, ds) ->
  Z.of_nat (List.length ds) <= s_total_claims s /\
  (ds = [] <-> s_total_claims s = 0).
Proof.
  intros H. apply compute_ok_records in H as (st & _ & HI & -> & ->).
  destruct HI as (Hsum & Hok & _). cbn [s_total_claims].
  assert (Hlen : Z.of_nat (List.length (districts_data st))
                 <= dd_sum_total (districts_data st)).
  { clear Hsum. induction Hok as [|[k v] dd Hv Hdd IH]; [simpl; lia|].
    cbn [List.length dd_sum_total fold_right snd]. fold (dd_sum_total dd).
    unfold stats_ok in Hv. simpl in Hv. rewrite Nat2Z.inj_succ. lia. }
  rewrite length_sort_desc, length_map.
  split; [lia|]. split.
  - intros E. apply (f_equal (@List.length _)) in E.
    rewrite length_sort_desc, length_map in E.
    destruct (districts_data st); [|discriminate].
    cbn [dd_sum_total fold_right] in Hsum. lia.
  - intros E. destruct (districts_data st); [reflexivity|].
    cbn [List.length] in Hlen. rewrite Nat2Z.inj_succ in Hlen. lia.
Qed.

Lemma X8_ranking_size_witness :
  Z.of_nat (List.length three_ranking) <= s_total_claims three_summary /\
  (three_ranking = [] <-> s_total_claims three_summary = 0).
Proof.
  assert (E : compute three_records = Ok (three_summary, three_ranking))
    by (vm_compute; reflexivity).
  exact (X8_ranking_size three_records _ _ E).
Defined.

(** ** Only four fields are read *)

Lemma tally_step_same_fields st a b :
  valid_record a = true -> valid_record b = true -> same_fields a b ->
  tally_step st a = tally_step st b.
Proof.
  intros Ha Hb (Ed & Es & Eo & Ep).
  destruct (tally_step_valid st a Ha) as (_ & dda & Hda & ->).
  destruct (tally_step_valid st b Hb) as (_ & ddb & Hdb & ->).
  rewrite Ed, Es, Eo, Ep in *. rewrite Hdb in Hda. now injection Hda as ->.
Qed.

Lemma for_each_same_fields xs ys :
  Forall2 same_fields xs ys ->
  forallb valid_record xs = true -> forallb valid_record ys = true ->
  forall st, for_each tally_step xs st = for_each tally_step ys st.
Proof.
  induction 1 as [|x y xs ys Hxy Hrest IH]; intros Hx Hy st; [reflexivity|].
  simpl in Hx, Hy. apply andb_true_iff in Hx as (Hx & Hxs).
  apply andb_true_iff in Hy as (Hy & Hys).
  cbn [for_each]. rewrite (tally_step_same_fields st x y Hx Hy Hxy).
  destruct (tally_step st y); simpl; auto.
Qed.

(** [compute] on a well-formed document, as a function of its records. *)
Lemma compute_valid_records data :
  valid_collection data = true ->
  forallb valid_record (records data) = true /\
  compute data
  = (st <- for_each tally_step (records data) tally_init ;;
     Ok (mkSummary (Z.of_nat (List.length (records data)))
           (approved_claims st) (pending_claims st) (conflict_claims st)
           (pct_of (approved_claims st) (Z.of_nat (List.length (records data))))
           (pct_of (pending_claims st) (Z.of_nat (List.length (records data)))),
         sort_desc (map rank_of (filter nonzero_total (districts_data st))))).
Proof.
  unfold valid_collection, records, compute. destruct data; try discriminate.
  cbn [py_get bind].
  destruct (assoc "features" items) as [v|]; [destruct v; try discriminate|]; intros Hv.
  - split; [exact Hv|]. cbn [py_len bind py_iter]. unfold tally_features.
    cbn [py_iter]. destruct (for_each tally_step xs tally_init); [|reflexivity].
    cbn [bind]. now rewrite rank_districts_eq, !pct_eq.
  - split; reflexivity.
Qed.

(** X9: the analytics depend on four fields of each record only.  Two
    well-formed documents with as many records, whose records agree one by
    one on [district], [status], [overlap] and [protected_zone] (missing
    ones read by their defaults), give the same result, whatever else the
    documents and the records hold. *)
Theorem X9_analytics_read_four_fields (data1 data2 : json) :
  valid_collection data1 = true -> valid_collection data2 = true ->
  Forall2 same_fields (records data1) (records data2) ->
  compute data1 = compute data2.
Proof.
  intros H1 H2 H.
  destruct (compute_valid_records data1 H1) as (V1 & ->).
  destruct (compute_valid_records data2 H2) as (V2 & ->).
  rewrite (for_each_same_fields _ _ H V1 V2).
  now rewrite (Forall2_length H).
Qed.

Lemma X9_analytics_read_four_fields_witness :
  compute three_records_decorated = compute three_records.
Proof.
  apply (X9_analytics_read_four_fields three_records_decorated three_records
           eq_refl eq_refl).
  repeat constructor.
Defined.

(** ** [generate_report] and the text service *)

Lemma NoDup_map_eq {A B : Type} (f : A -> B) (l : list A) a b :
  NoDup (map f l) -> In a l -> In b l -> f a = f b -> a = b.
Proof.
  induction l as [|x l IH]; simpl; [intros _ []|].
  intros Hnd. inversion Hnd as [|? ? Hnotin Hnd']; subst.
  intros [-> | Ha] [-> | Hb] E; auto.
  - exfalso. apply Hnotin. rewrite E. now apply in_map.
  - exfalso. apply Hnotin. rewrite <- E. now apply in_map.
Qed.

Lemma get_analytics_ok store s ds :
  get_analytics store = Analytics s ds ->
  exists data, store = Ok data /\ compute data = Ok (s, ds).
Proof.
  unfold get_analytics. destruct store as [data|e]; simpl; [|discriminate].
  destruct (compute data) as [[s' ds']|e] eqn:E; [|discriminate].
  intros [= <- <-]. eauto.
Qed.

(** X10: what [generate_report] does outside the process.  It does
    nothing, or reads the store, or reads the store and then calls the
    text service once.  The service is called only when the key is
    configured and the analytics were computed, and then with the one entry
    of the ranking whose district is the requested name; the answer is the
    report under the requested name when the service returns, and the
    generation failure with the service's message when it raises.  A report
    is returned only after a call to the service. *)
Theorem X10_report_service_discipline (w : world) (name : string)
    (resp : report_response) (evs : list event) :
  generate_report w name = (resp, evs) ->
  (evs = [] \/ evs = [ReadStore] \/ exists p, evs = [ReadStore; CallService p]) /\
  (forall p, In (CallService p) evs ->
     key_unconfigured (GEMINI_API_KEY w) = false /\
     exists s ds,
       get_analytics (DATA_FILE w) = Analytics s ds /\
       In p ds /\ district p = JStr name /\
       (forall q, In q ds -> district q = JStr name -> q = p) /\
       match generate_content w p with
       | Ok text => resp = Report name text
       | Raise e => resp = ReportError ("AI Generation Failed: " ++ exn_str e)%string
       end) /\
  (forall n text, resp = Report n text -> exists p, In (CallService p) evs).
Proof.
  unfold generate_report.
  destruct (key_unconfigured (GEMINI_API_KEY w)) eqn:Ek.
  { intros [= <- <-]. split; [auto|]. split; [intros p []|]. discriminate. }
  destruct (get_analytics (DATA_FILE w)) as [error|s ds] eqn:Ea.
  { intros [= <- <-]. split; [auto|].
    split; [intros p [|[]]; discriminate|]. discriminate. }
  destruct (find_district name ds) as [p|] eqn:Ef.
  2:{ intros [= <- <-]. split; [auto|].
      split; [intros p [|[]]; discriminate|]. discriminate. }
  assert (Hfacts : In p ds /\ district p = JStr name /\
                   forall q, In q ds -> district q = JStr name -> q = p).
  { apply find_some in Ef as (Hin & Hd). apply py_eq_str in Hd.
    split; [assumption|]. split; [assumption|].
    intros q Hq Hdq.
    destruct (get_analytics_ok _ _ _ Ea) as (data & _ & Hc).
    pose proof (ranking_keys_perm _ _ _ Hc) as (Hh & Hperm).
    assert (Hnd : NoDup (map district ds)).
    { eapply Permutation_NoDup; [symmetry; exact Hperm|].
      apply first_seen_NoDup; [assumption | constructor]. }
    apply (NoDup_map_eq district ds); congruence. }
  intros H. split; [|split].
  - right. right. exists p.
    destruct (generate_content w p); now injection H as _ <-.
  - intros p' Hp'. split; [reflexivity|]. exists s, ds. split; [reflexivity|].
    assert (p' = p) as ->.
    { destruct (generate_content w p); injection H as _ <-;
        destruct Hp' as [|[E|[]]]; congruence. }
    destruct Hfacts as (F1 & F2 & F3). repeat split; try assumption.
    destruct (generate_content w p); now injection H as <- _.
  - intros n text ->. exists p.
    destruct (generate_content w p); inversion H; subst; simpl; auto.
Qed.

Lemma X10_report_service_discipline_witness :
  exists p, In (CallService p) [ReadStore; CallService (mkRanking (JStr "A") 2 1 1 50 "Moderate")]
            /\ district p = JStr "A".
Proof.
  destruct (X10_report_service_discipline sample_world "A" (Report "A" "report")
              [ReadStore; CallService (mkRanking (JStr "A") 2 1 1 50 "Moderate")]
              eq_refl) as (_ & H & _).
  exists (mkRanking (JStr "A") 2 1 1 50 "Moderate").
  split; [right; left; reflexivity|].
  destruct (H _ (or_intror (or_introl eq_refl))) as (_ & s & ds & _ & _ & Hd & _).
  exact Hd.
Defined.

(** X11: the three handlers on a store that cannot be read or whose
    document the analytics reject.  With the key configured,
    [get_analytics] returns an error payload and [generate_report] returns
    the gathering failure built on its message, after reading the store and
    without calling the text service.  [get_claims] returns the same
    message when the store cannot be read, and hands out a document that
    can be read as it is, accepted by the analytics or not. *)
Theorem X11_report_on_rejected_store (w : world) (name : string) :
  key_unconfigured (GEMINI_API_KEY w) = false ->
  match DATA_FILE w with
  | Ok data => accepted data = false
  | Raise _ => True
  end ->
  exists error,
    get_analytics (DATA_FILE w) = AnalyticsError error /\
    generate_report w name
    = (ReportError ("Failed to gather analytics for report: " ++ error)%string,
       [ReadStore]) /\
    (forall e, DATA_FILE w = Raise e ->
       get_claims (DATA_FILE w) = JDict [("error", JStr error)]) /\
    (forall data, DATA_FILE w = Ok data -> get_claims (DATA_FILE w) = data).
Proof.
  intros Hk Hs.
  assert (Ha : exists error, get_analytics (DATA_FILE w) = AnalyticsError error /\
                 forall e, DATA_FILE w = Raise e -> error = exn_str e).
  { unfold get_analytics. destruct (DATA_FILE w) as [data|e]; simpl.
    - destruct (compute data) as [[s ds]|e] eqn:E.
      + assert (accepted data = true)
          by (eapply compute_ok_accepted; eauto). congruence.
      + eexists. split; [reflexivity | discriminate].
    - eexists. split; [reflexivity|]. now intros e' [= <-]. }
  destruct Ha as (error & Ha & He). exists error.
  split; [exact Ha|]. split.
  - unfold generate_report. now rewrite Hk, Ha.
  - split.
    + intros e E. rewrite (He e E), E. reflexivity.
    + intros data E. now rewrite E.
Qed.

Lemma X11_report_on_rejected_store_witness :
  exists error,
    generate_report broken_world "A"
    = (ReportError ("Failed to gather analytics for report: " ++ error)%string,
       [ReadStore]).
Proof.
  destruct (X11_report_on_rejected_store broken_world "A" eq_refl eq_refl)
    as (error & _ & H & _).
  exists error. exact H.
Defined.

(** ** The percentages of the summary *)

(** [count / total * 100] lies in [0, 100]. *)
Lemma percentage_le count total :
  0 <= count <= total -> 0 < total < 2 ^ 53 ->
  nonneg_le (float_of_int count / float_of_int total * 100)%float 100%R.
Proof.
  intros Hc Ht. rewrite <- F2R_hundred.
  apply (mul_const_le _ 100%float 1%R 7036874417766400 (-46));
    [ | reflexivity | reflexivity | reflexivity | rewrite F2R_hundred; lra].
  rewrite <- F2R_one.
  apply div_int_le; [lia | lia | reflexivity |].
  rewrite F2R_one. assert (IZR count <= IZR total)%R by (apply IZR_le; lia). lra.
Qed.

(** The scaled integer of [round(x, ndigits)] on a number of [0, K]. *)
Lemma scaled_half_even_upper ndigits m e K :
  0 <= ndigits -> 0 <= K -> (F2R (Z.pos m) e <= IZR K)%R ->
  0 <= scaled_half_even ndigits m e <= K * 10 ^ ndigits.
Proof.
  intros Hd HK Hv. unfold scaled_half_even.
  pose proof (Z.pow_pos_nonneg 10 ndigits ltac:(lia) Hd) as Hten.
  destruct (Z.leb_spec 0 e) as [He | He].
  - assert (Z.pos m * 2 ^ e <= K).
    { apply (F2R_le_inv _ _ 0). rewrite F2R_shift by lia. simpl.
      unfold F2R at 2. rewrite bpow_0. lra. }
    pose proof (Z.pow_pos_nonneg 2 e ltac:(lia) He). nia.
  - assert (Z.pos m <= K * 2 ^ (- e)).
    { apply (F2R_le_inv _ _ e). rewrite F2R_shift by lia.
      replace (e + - e) with 0 by lia. unfold F2R at 2. rewrite bpow_0. lra. }
    pose proof (Z.pow_pos_nonneg 2 (- e) ltac:(lia) ltac:(lia)).
    apply div_half_even_le; nia.
Qed.

Lemma div_half_even_ge a b K :
  0 <= a -> 0 < b -> K * b <= a -> K <= div_half_even a b.
Proof.
  intros Ha Hb HK. unfold div_half_even.
  pose proof (Z.div_mod a b ltac:(lia)) as Hdm.
  pose proof (Z.mod_pos_bound a b Hb) as Hr.
  assert (K <= a / b) by (apply Z.div_le_lower_bound; lia).
  destruct (2 * (a mod b) ?= b); [destruct (Z.even (a / b))| |]; lia.
Qed.

(** The scaled integer of [round(x, ndigits)] on a number at or above [K]. *)
Lemma scaled_half_even_lower ndigits m e K :
  0 <= ndigits -> 0 <= K -> (IZR K <= F2R (Z.pos m) e)%R ->
  K * 10 ^ ndigits <= scaled_half_even ndigits m e.
Proof.
  intros Hd HK Hv. unfold scaled_half_even.
  pose proof (Z.pow_pos_nonneg 10 ndigits ltac:(lia) Hd) as Hten.
  destruct (Z.leb_spec 0 e) as [He | He].
  - assert (K <= Z.pos m * 2 ^ e).
    { apply (F2R_le_inv _ _ 0). rewrite F2R_shift by lia. simpl.
      unfold F2R at 1. rewrite bpow_0. lra. }
    nia.
  - assert (K * 2 ^ (- e) <= Z.pos m).
    { apply (F2R_le_inv _ _ e). rewrite F2R_shift by lia.
      replace (e + - e) with 0 by lia. unfold F2R at 1. rewrite bpow_0. lra. }
    pose proof (Z.pow_pos_nonneg 2 (- e) ltac:(lia) ltac:(lia)).
    apply div_half_even_ge; nia.
Qed.

(** A percentage rounded to one place is the float nearest to [n / 10] for
    an integer [0 <= n <= 1000], and lies in [0, 100]. *)
Lemma py_round_percentage x :
  nonneg_le x 100%R ->
  nonneg_le (py_round_float 1 x) 100%R /\ one_decimal (py_round_float 1 x).
Proof.
  intros Hx. pose proof Hx as (_ & [H0 | (m & e & Hf & Hv)]).
  - unfold py_round_float. rewrite H0. split; [assumption|].
    exists 0. split; [lia|].
    apply Prim2SF_inj. now rewrite H0.
  - unfold py_round_float. rewrite Hf.
    pose proof (scaled_half_even_upper 1 m e 100 ltac:(lia) ltac:(lia) Hv) as Hn.
    change (100 * 10 ^ 1) with 1000 in Hn.
    destruct (Z.ltb_spec (scaled_half_even 1 m e) (2 ^ 53)) as [_|Hbig];
      [|assert (1000 < 2 ^ 53) by reflexivity; lia].
    change (10 ^ 1) with 10. split.
    + rewrite <- F2R_hundred.
      apply div_int_le; [ | split; reflexivity | reflexivity | ].
      * assert (1000 < 2 ^ 53) by reflexivity. lia.
      * rewrite F2R_hundred.
        assert (IZR (scaled_half_even 1 m e) <= IZR 1000)%R by (apply IZR_le; lia).
        lra.
    + exists (scaled_half_even 1 m e). split; [assumption | reflexivity].
Qed.

Lemma pct_of_zero count : pct_of count 0 = PyInt 0.
Proof. reflexivity. Qed.

Lemma pct_of_nonzero count total :
  0 <= count <= total -> 0 < total < 2 ^ 53 ->
  exists f, pct_of count total = PyFloat f /\
            (0 <=? f)%float = true /\ (f <=? 100)%float = true /\ one_decimal f.
Proof.
  intros Hc Ht. unfold pct_of.
  destruct (Z.eqb_spec total 0) as [E|_]; [lia|]. cbn [negb py_round].
  destruct (py_round_percentage _ (percentage_le count total Hc Ht)) as (Hle & Hone).
  eexists. split; [reflexivity|].
  split; [eapply nonneg_le_leb_zero; eauto|].
  split; [|assumption].
  apply (nonneg_le_leb _ 100%float 7036874417766400 (-46));
    [reflexivity | now rewrite F2R_hundred].
Qed.

(** X12: the two percentages of the summary, for a document of fewer
    than [2^53] records.  Without records both are the integer 0.
    Otherwise both are floats: [count / total_claims * 100] in binary64
    rounded to one decimal place, which is the float nearest to [n / 10]
    for an integer [0 <= n <= 1000] and lies in [0, 100]. *)
Theorem X12_summary_percentages (data : json) (s : summary) (ds : list ranking) :
  compute data = Ok (s, ds) ->
  Z.of_nat (List.length (records data)) < 2 ^ 53 ->
  (s_total_claims s = 0 -> approved_pct s = PyInt 0 /\ pending_pct s = PyInt 0) /\
  (s_total_claims s <> 0 ->
   exists a p,
     approved_pct s = PyFloat a /\ pending_pct s = PyFloat p /\
     a = py_round_float 1
           (float_of_int (s_approved_claims s) / float_of_int (s_total_claims s) * 100) /\
     p = py_round_float 1
           (float_of_int (s_pending_claims s) / float_of_int (s_total_claims s) * 100) /\
     (0 <=? a)%float = true /\ (a <=? 100)%float = true /\ one_decimal a /\
     (0 <=? p)%float = true /\ (p <=? 100)%float = true /\ one_decimal p).
Proof.
  intros H Hsize. apply compute_ok_records in H as (st & _ & HI & -> & _).
  destruct HI as (_ & _ & Ha & Hp & Hc & Hle).
  cbn [s_total_claims approved_pct pending_pct s_approved_claims s_pending_claims].
  split.
  - intros ->. split; reflexivity.
  - intros Hnz.
    destruct (pct_of_nonzero (approved_claims st)
                (Z.of_nat (List.length (records data))) ltac:(lia) ltac:(lia))
      as (a & Ea & A0 & A1 & A2).
    destruct (pct_of_nonzero (pending_claims st)
                (Z.of_nat (List.length (records data))) ltac:(lia) ltac:(lia))
      as (p & Ep & P0 & P1 & P2).
    exists a, p. rewrite Ea, Ep.
    unfold pct_of in Ea, Ep.
    destruct (Z.eqb_spec (Z.of_nat (List.length (records data))) 0) as [E|_];
      [contradiction|].
    cbn [negb py_round] in Ea, Ep. injection Ea as Ea. injection Ep as Ep.
    repeat split; auto.
Qed.

Lemma X12_summary_percentages_witness :
  exists a p,
    approved_pct three_summary = PyFloat a /\
    pending_pct three_summary = PyFloat p /\
    one_decimal a /\ one_decimal p.
Proof.
  assert (E : compute three_records = Ok (three_summary, three_ranking))
    by (vm_compute; reflexivity).
  destruct (X12_summary_percentages three_records _ _ E eq_refl) as (_ & H).
  destruct (H ltac:(discriminate))
    as (a & p & Ea & Ep & _ & _ & _ & _ & Ha & _ & _ & Hp).
  exists a, p. repeat split; assumption.
Defined.

(** ** The level and the rounded score *)

(** On finite positive floats, [<=?] is the order of the values. *)
Lemma SFcompare_F2R m1 e1 m2 e2 :
  SpecFloat.bounded prec emax m1 e1 = true ->
  SpecFloat.bounded prec emax m2 e2 = true ->
  match SFcompare (S754_finite false m1 e1) (S754_finite false m2 e2) with
  | Some Lt => (F2R (Z.pos m1) e1 < F2R (Z.pos m2) e2)%R
  | Some Eq => F2R (Z.pos m1) e1 = F2R (Z.pos m2) e2
  | Some Gt => (F2R (Z.pos m2) e2 < F2R (Z.pos m1) e1)%R
  | None => False
  end.
Proof.
  intros V1 V2.
  apply bounded_facts in V1 as (A1 & A2 & A3).
  apply bounded_facts in V2 as (B1 & B2 & B3).
  cbn [SFcompare].
  destruct (Z.compare_spec e1 e2) as [-> | Hlt | Hgt].
  - rewrite Pos.compare_cont_spec. cbn [Pos.switch_Eq].
    destruct (Pos.compare_spec m1 m2) as [-> | L | G].
    + reflexivity.
    + apply F2R_lt. lia.
    + apply F2R_lt. lia.
  - pose proof (F2R_digits_lower m2 e2) as L. rewrite B3 in L by lia.
    pose proof (F2R_digits_upper m1 e1) as U.
    pose proof (bpow_le (Z.pos (digits2_pos m1) + e1) (53 - 1 + e2) ltac:(lia)).
    lra.
  - pose proof (F2R_digits_lower m1 e1) as L. rewrite A3 in L by lia.
    pose proof (F2R_digits_upper m2 e2) as U.
    pose proof (bpow_le (Z.pos (digits2_pos m2) + e2) (53 - 1 + e1) ltac:(lia)).
    lra.
Qed.

Lemma leb_F2R x m e B mB eB :
  Prim2SF x = S754_finite false m e -> Prim2SF B = S754_finite false mB eB ->
  if (x <=? B)%float then (F2R (Z.pos m) e <= F2R (Z.pos mB) eB)%R
  else (F2R (Z.pos mB) eB < F2R (Z.pos m) e)%R.
Proof.
  intros Hx HB.
  pose proof (Prim2SF_valid x) as Vx. rewrite Hx in Vx.
  pose proof (Prim2SF_valid B) as VB. rewrite HB in VB.
  pose proof (SFcompare_F2R m e mB eB Vx VB) as Hc.
  rewrite FloatAxioms.leb_spec, Hx, HB. unfold SFleb.
  destruct (SFcompare (S754_finite false m e) (S754_finite false mB eB)) as [[]|];
    [lra | lra | assumption | contradiction].
Qed.

Lemma quotients_between_spec d lo hi a b n :
  quotients_between d lo hi a b = true -> lo <= n <= hi ->
  (a <=? float_of_int n / float_of_int d)%float = true /\
  (float_of_int n / float_of_int d <=? b)%float = true.
Proof.
  unfold quotients_between. rewrite forallb_forall. intros H Hn.
  specialize (H (Z.to_nat (n - lo))).
  replace (lo + Z.of_nat (Z.to_nat (n - lo))) with n in H by lia.
  apply andb_true_iff, H, in_seq. lia.
Qed.

Lemma hundredths_low : quotients_between 100 0 4000 0 40 = true.
Proof. vm_compute. reflexivity. Qed.

Lemma hundredths_mid : quotients_between 100 4000 7000 40 70 = true.
Proof. vm_compute. reflexivity. Qed.

Lemma hundredths_high : quotients_between 100 7000 10000 70 100 = true.
Proof. vm_compute. reflexivity. Qed.

Lemma F2R_forty : F2R 5629499534213120 (-47) = 40%R.
Proof.
  change 5629499534213120 with (40 * 2 ^ 47). apply (F2R_int 40 47). lia.
Qed.

Lemma F2R_seventy : F2R 4925812092436480 (-46) = 70%R.
Proof.
  change 4925812092436480 with (70 * 2 ^ 46). apply (F2R_int 70 46). lia.
Qed.

(** The band of a score and the band of the score rounded to two places. *)
Lemma rounded_score_band x :
  nonneg_le x 100%R ->
  (classify x = "Low" /\ (py_round_float 2 x <=? 40)%float = true) \/
  (classify x = "Moderate" /\ (40 <=? py_round_float 2 x)%float = true /\
   (py_round_float 2 x <=? 70)%float = true) \/
  (classify x = "High" /\ (70 <=? py_round_float 2 x)%float = true).
Proof.
  intros Hx. pose proof Hx as (_ & [H0 | (m & e & Hf & Hv)]).
  - left. assert (x = 0%float) as -> by (apply Prim2SF_inj; now rewrite H0).
    split; reflexivity.
  - pose proof (leb_F2R x m e 40%float 5629499534213120%positive (-47) Hf eq_refl) as H40.
    pose proof (leb_F2R x m e 70%float 4925812092436480%positive (-46) Hf eq_refl) as H70.
    rewrite F2R_forty in H40. rewrite F2R_seventy in H70.
    pose proof (scaled_half_even_upper 2 m e 100 ltac:(lia) ltac:(lia) Hv) as Hn.
    change (100 * 10 ^ 2) with 10000 in Hn.
    unfold classify, py_round_float. rewrite Hf.
    destruct (Z.ltb_spec (scaled_half_even 2 m e) (2 ^ 53)) as [_|Hbig];
      [|assert (10000 < 2 ^ 53) by reflexivity; lia].
    change (10 ^ 2) with 100.
    destruct (x <=? 40)%float.
    + left. split; [reflexivity|].
      pose proof (scaled_half_even_upper 2 m e 40 ltac:(lia) ltac:(lia) H40) as Hu.
      change (40 * 10 ^ 2) with 4000 in Hu.
      apply (quotients_between_spec _ _ _ _ _ _ hundredths_low). lia.
    + pose proof (scaled_half_even_lower 2 m e 40 ltac:(lia) ltac:(lia)
                    ltac:(lra)) as Hl.
      change (40 * 10 ^ 2) with 4000 in Hl.
      destruct (x <=? 70)%float.
      * right. left. split; [reflexivity|].
        pose proof (scaled_half_even_upper 2 m e 70 ltac:(lia) ltac:(lia) H70) as Hu.
        change (70 * 10 ^ 2) with 7000 in Hu.
        apply (quotients_between_spec _ _ _ _ _ _ hundredths_mid). lia.
      * right. right. split; [reflexivity|].
        pose proof (scaled_half_even_lower 2 m e 70 ltac:(lia) ltac:(lia)
                      ltac:(lra)) as Hl'.
        change (70 * 10 ^ 2) with 7000 in Hl'.
        apply (quotients_between_spec _ _ _ _ _ _ hundredths_high). lia.
Qed.

(** X13: the level of an entry against the [risk_score] it shows, for a
    document of fewer than [2^53] records.  The level is computed from the
    score before rounding, yet the rounded score stays in the closed band
    of the level: at most 40 under Low, from 40 to 70 under Moderate, at
    least 70 under High.  The bands share their ends: [band_edge_run] is a
    Moderate entry that shows 40.0. *)
Theorem X13_level_matches_displayed_score (data : json) (s : summary)
    (ds : list ranking) (r : ranking) :
  compute data = Ok (s, ds) ->
  Z.of_nat (List.length (records data)) < 2 ^ 53 ->
  In r ds ->
  (risk_level r = "Low" /\ (risk_score r <=? 40)%float = true) \/
  (risk_level r = "Moderate" /\ (40 <=? risk_score r)%float = true /\
   (risk_score r <=? 70)%float = true) \/
  (risk_level r = "High" /\ (70 <=? risk_score r)%float = true).
Proof.
  intros H Hsize Hr. apply compute_ok_records in H as (st & _ & HI & _ & ->).
  apply In_sort_desc, In_rank_of in Hr as (k & agg & Hagg & ->).
  destruct HI as (Hsum & Hok & _).
  pose proof (total_le_sum _ _ _ Hok Hagg) as Hle.
  rewrite Forall_forall in Hok. specialize (Hok _ Hagg).
  unfold stats_ok in Hok. simpl in Hok.
  cbn [rank_of risk_level risk_score].
  apply rounded_score_band, score_of_le; lia.
Qed.

Lemma X13_level_matches_displayed_score_witness :
  (40 <=? 50)%float = true /\ (50 <=? 70)%float = true.
Proof.
  assert (E : compute three_records = Ok (three_summary, three_ranking))
    by (vm_compute; reflexivity).
  destruct (X13_level_matches_displayed_score three_records _ _
              (mkRanking (JStr "A") 2 1 1 50 "Moderate")
              E eq_refl (or_introl eq_refl))
    as [(E' & _) | [(_ & H) | (E' & _)]];
    [discriminate | exact H | discriminate].
Defined.

(** ** The order of the records *)

Lemma count_perm p xs ys : Permutation xs ys -> count p xs = count p ys.
Proof.
  induction 1 as [| x xs ys _ IH | x y xs | xs ys zs _ IH1 _ IH2];
    rewrite ?count_cons; lia.
Qed.

(** An entry is determined by its district and its three counters. *)
Lemma rank_of_counters k agg :
  rank_of (k, agg)
  = rank_of (k, mkStats (total agg) (pending agg) (conflicts agg) 0).
Proof. reflexivity. Qed.

(** X14: the order of the records matters to the order of the ranking
    only.  Two documents with the same records in any order give the same
    summary, and every entry of a district named by a string that one
    ranking has, the other has too. *)
Theorem X14_record_order_independent (data1 data2 : json)
    (s1 s2 : summary) (ds1 ds2 : list ranking) :
  compute data1 = Ok (s1, ds1) -> compute data2 = Ok (s2, ds2) ->
  Permutation (records data1) (records data2) ->
  s1 = s2 /\
  forall r name, district r = JStr name -> In r ds1 -> In r ds2.
Proof.
  intros H1 H2 Hperm. split.
  - apply compute_ok_records in H1 as (st1 & Hst1 & _ & -> & _).
    apply compute_ok_records in H2 as (st2 & Hst2 & _ & -> & _).
    destruct (tally_run_global _ _ _ Hst1) as (Ea1 & Ep1 & Ec1).
    destruct (tally_run_global _ _ _ Hst2) as (Ea2 & Ep2 & Ec2).
    cbn [approved_claims pending_claims conflict_claims tally_init]
      in Ea1, Ep1, Ec1, Ea2, Ep2, Ec2.
    rewrite Ea1, Ep1, Ec1, Ea2, Ep2, Ec2.
    rewrite (Permutation_length Hperm).
    rewrite (count_perm is_approved _ _ Hperm), (count_perm is_pending _ _ Hperm),
      (count_perm global_conflict _ _ Hperm).
    reflexivity.
  - intros r name Hname Hr.
    destruct (named_entry_counts _ _ _ _ _ H1 Hr Hname) as (Et & Ep & Ec).
    assert (Hpos : 0 < total_claims r).
    { pose proof H1 as H. apply compute_ok_records in H as (st & _ & HI & _ & ->).
      apply In_sort_desc, In_rank_of in Hr as (k & agg & Hagg & ->).
      destruct HI as (_ & Hok & _). rewrite Forall_forall in Hok.
      specialize (Hok _ Hagg). unfold stats_ok in Hok. simpl in Hok. simpl. lia. }
    rewrite (count_perm _ _ _ Hperm) in Et.
    rewrite (count_perm _ _ _ Hperm) in Ep.
    rewrite (count_perm _ _ _ Hperm) in Ec.
    destruct (named_entry_exists data2 s2 ds2 name H2 ltac:(lia)) as (r2 & Hr2 & Hname2).
    destruct (named_entry_counts _ _ _ _ _ H2 Hr2 Hname2) as (Et2 & Ep2 & Ec2).
    assert (r2 = r); [|now subst].
    apply compute_ok_records in H1 as (st1 & _ & _ & _ & ->).
    apply compute_ok_records in H2 as (st2 & _ & _ & _ & ->).
    apply In_sort_desc, In_rank_of in Hr as (k & agg & _ & ->).
    apply In_sort_desc, In_rank_of in Hr2 as (k2 & agg2 & _ & ->).
    rewrite (rank_of_counters k agg), (rank_of_counters k2 agg2).
    simpl in Hname, Hname2, Et, Ep, Ec, Et2, Ep2, Ec2.
    congruence.
Qed.

Lemma X14_record_order_independent_witness :
  three_summary = three_summary /\
  forall r name, district r = JStr name -> In r three_ranking -> In r (rev three_ranking).
Proof.
  assert (E1 : compute three_records = Ok (three_summary, three_ranking))
    by (vm_compute; reflexivity).
  assert (E2 : compute three_records_reversed = Ok (three_summary, rev three_ranking))
    by (vm_compute; reflexivity).
  exact (X14_record_order_independent three_records three_records_reversed _ _ _ _
           E1 E2 (Permutation_rev three_features)).
Defined.

(** ** The errors of [compute] *)

Lemma py_get_input_error v key default e :
  py_get v key default = Raise e -> input_error e = true.
Proof. destruct v; simpl; intros [= <-]; reflexivity. Qed.

Lemma py_len_input_error v e : py_len v = Raise e -> input_error e = true.
Proof. destruct v; simpl; intros [= <-]; reflexivity. Qed.

Lemma py_hash_input_error v e : py_hash v = Raise e -> input_error e = true.
Proof. destruct v; simpl; intros [= <-]; reflexivity. Qed.

Lemma tally_step_input_error st feature e :
  tally_step st feature = Raise e -> input_error e = true.
Proof.
  unfold tally_step. intros H.
  repeat (apply bind_raise in H as [H | (? & _ & H)];
          [now apply py_get_input_error in H|]).
  apply bind_raise in H as [H | (? & _ & H)]; [|discriminate].
  unfold district_counts in H.
  apply bind_raise in H as [H | (? & _ & H)]; [|discriminate].
  now apply py_hash_input_error in H.
Qed.

(** X15: the error of [get_analytics] on a store that was read.  The
    message is that of an [AttributeError] for [get] on a value that is no
    mapping, of a [TypeError] for the [len] of a null, a boolean or a
    number, or of a [TypeError] for a list or a mapping used as a district;
    the handler raises nothing else on a document, whatever its shape. *)
Theorem X15_analytics_error_kinds (data : json) (error : string) :
  get_analytics (Ok data) = AnalyticsError error ->
  exists e, compute data = Raise e /\ error = exn_str e /\ input_error e = true.
Proof.
  unfold get_analytics. cbn [bind].
  destruct (compute data) as [[s ds]|e] eqn:H; [discriminate|].
  intros [= <-]. exists e. split; [reflexivity|]. split; [reflexivity|].
  unfold compute in H.
  apply bind_raise in H as [H | (features & _ & H)];
    [now apply py_get_input_error in H|].
  apply bind_raise in H as [H | (n & _ & H)]; [now apply py_len_input_error in H|].
  apply bind_raise in H as [H | (st & _ & H)].
  { exact (for_each_raise tally_step (fun e => input_error e = true)
             tally_step_input_error _ _ _ H). }
  rewrite rank_districts_eq, !pct_eq in H. discriminate.
Qed.

Lemma X15_analytics_error_kinds_witness :
  exists e, compute (JList []) = Raise e /\
            "'list' object has no attribute 'get'" = exn_str e /\
            input_error e = true.
Proof.
  exact (X15_analytics_error_kinds (JList []) _ eq_refl).
Defined.

(** ** The first malformed record *)

Lemma record_error_valid feature :
  record_error feature = None <-> valid_record feature = true.
Proof.
  unfold record_error, valid_record.
  destruct feature; simpl; try (split; discriminate).
  destruct (assoc "properties" items) as [p|]; simpl; [|split; reflexivity].
  destruct p; simpl; try (split; discriminate).
  destruct (assoc "district" items0) as [d|]; simpl; [|split; reflexivity].
  destruct d; simpl; split; try reflexivity; discriminate.
Qed.

Lemma tally_step_record_error st feature e :
  record_error feature = Some e -> tally_step st feature = Raise e.
Proof.
  unfold record_error, tally_step.
  destruct (py_get feature "properties" (JDict [])) as [props|e1]; cbn [bind];
    [|now intros [= <-]].
  destruct props; simpl; try (now intros [= <-]).
  unfold district_counts.
  destruct (py_hash match assoc "district" items with
                     | Some x => x | None => JStr "Unknown" end) as [[]|e3];
    cbn [bind]; [discriminate | now intros [= <-]].
Qed.

Lemma for_each_tally_total xs : forall st,
  forallb valid_record xs = true -> exists st', for_each tally_step xs st = Ok st'.
Proof.
  induction xs as [|x xs IH]; intros st; simpl; [eauto|].
  intros H. apply andb_true_iff in H as (Hx & Hxs).
  destruct (tally_step_valid st x Hx) as (_ & dd' & _ & ->). cbn [bind]. auto.
Qed.

Lemma for_each_app_raise {S A : Type} (body : S -> A -> result S) xs x ys st st' e :
  for_each body xs st = Ok st' -> body st' x = Raise e ->
  for_each body (xs ++ x :: ys) st = Raise e.
Proof.
  revert st. induction xs as [|a xs IH]; intros st; simpl.
  - intros [= ->] ->. reflexivity.
  - destruct (body st a) as [st1|e1]; cbn [bind]; [auto | discriminate].
Qed.

(** X16: the first malformed record decides the error.  When the records
    before it are well formed, [get_analytics] returns the message of the
    exception that record raises, whatever follows it; no count of the
    records before it is returned. *)
Theorem X16_first_malformed_record (items : list (string * json))
    (good rest : list json) (bad : json) (e : exn) :
  assoc "features" items = Some (JList (good ++ bad :: rest)) ->
  forallb valid_record good = true ->
  record_error bad = Some e ->
  valid_record bad = false /\
  compute (JDict items) = Raise e /\
  get_analytics (Ok (JDict items)) = AnalyticsError (exn_str e).
Proof.
  intros Hf Hgood Hbad.
  assert (Hc : compute (JDict items) = Raise e).
  { unfold compute. cbn [py_get bind]. rewrite Hf. cbn [py_len bind].
    unfold tally_features. cbn [py_iter].
    destruct (for_each_tally_total good tally_init Hgood) as (st & Hst).
    now rewrite (for_each_app_raise tally_step good bad rest _ _ e Hst
                   (tally_step_record_error st bad e Hbad)). }
  split; [|split].
  - destruct (valid_record bad) eqn:Hv; [|reflexivity].
    apply record_error_valid in Hv. congruence.
  - exact Hc.
  - unfold get_analytics. cbn [bind]. now rewrite Hc.
Qed.

Lemma X16_first_malformed_record_witness :
  valid_record (JInt 3) = false /\
  compute number_among_records = Raise (AttributeError "int" "get") /\
  get_analytics (Ok number_among_records)
  = AnalyticsError (exn_str (AttributeError "int" "get")).
Proof.
  exact (X16_first_malformed_record
           [("type", JStr "FeatureCollection");
            ("features", JList [ feature [("district", JStr "A")]; JInt 3; JNull ])]
           [feature [("district", JStr "A")]] [JNull] (JInt 3)
           (AttributeError "int" "get") eq_refl eq_refl eq_refl).
Defined.
